(** * AppointmentList: classification, filtering, ordering and status changes

    A shallow embedding of the logic of
    [src/components/Appointments/AppointmentList.js]: the predicates of the
    filter switch, the chronological sort, the status badge and label, the
    quick-stats counters and the status-change handler.

    Time values are ECMAScript time values: integers counting milliseconds
    since 1970-01-01T00:00:00Z.  The local time zone is a fixed offset [tz]
    (milliseconds to add to UTC to obtain local time); daylight-saving
    transitions are not modelled.  Every call of [Date.now()] made while one
    function runs is modelled by one value [now].  The texts of dates and
    times are taken in parsed form, so every [Date] built from them is a
    valid one. *)

From Stdlib Require Import ZArith List String Ascii Bool Lia.
From Stdlib Require Import Permutation Sorted.
Import ListNotations.

Local Open Scope string_scope.
Local Open Scope Z_scope.

(** ** Data model *)

(** The text ['YYYY-MM-DD'] of [appointment_date], in parsed form. *)
Record ISODate : Type := mkDate { year : Z; month : Z; day : Z }.

(** The text ['HH:mm'] of [appointment_time], in parsed form. *)
Record ISOTime : Type := mkTime { hour : Z; minute : Z }.

(** One appointment object, with the fields of the records that
    [loadAppointments] stores. *)
Record Appointment : Type := mkAppointment {
  id : string;
  patient_id : string;
  first_name : string;
  last_name : string;
  appointment_date : ISODate;
  appointment_time : ISOTime;
  duration : Z;
  status : string;
  reason : string;
  notes : string;
  created_at : string
}.

(** [{ ...apt, status: newStatus }] *)
Definition with_status (apt : Appointment) (newStatus : string) : Appointment :=
  {| id := id apt;
     patient_id := patient_id apt;
     first_name := first_name apt;
     last_name := last_name apt;
     appointment_date := appointment_date apt;
     appointment_time := appointment_time apt;
     duration := duration apt;
     status := newStatus;
     reason := reason apt;
     notes := notes apt;
     created_at := created_at apt |}.

(** ** ECMAScript dates *)

Definition msPerMinute : Z := 60000.
Definition msPerHour : Z := 3600000.
Definition msPerDay : Z := 86400000.

(** [MakeDay(year, month, date)]: the number of days between 1970-01-01 and
    the given day of the proleptic Gregorian calendar ([m] counts from 1, as
    in the text of a date). *)
Definition MakeDay (y m d : Z) : Z :=
  let y' := if m <=? 2 then y - 1 else y in
  let era := y' / 400 in
  let yoe := y' - era * 400 in
  let mp := if m >? 2 then m - 3 else m + 9 in
  let doy := (153 * mp + 2) / 5 + d - 1 in
  let doe := yoe * 365 + yoe / 4 - yoe / 100 + doy in
  era * 146097 + doe - 719468.

Definition MakeTime (h mi : Z) : Z := h * msPerHour + mi * msPerMinute.

Definition MakeDate (dy tm : Z) : Z := dy * msPerDay + tm.

Definition dayNumber (d : ISODate) : Z := MakeDay (year d) (month d) (day d).

(** [new Date(apt.appointment_date)]: a date-only text is read as UTC
    midnight of that day. *)
Definition Date_of_date (d : ISODate) : Z := MakeDate (dayNumber d) 0.

(** [new Date(`${apt.appointment_date}T${apt.appointment_time}`)]: a
    date-time text without offset is read as local time, here with the one
    offset [tz]; a zone whose offset changes between two instants is not
    covered. *)
Definition Date_of_datetime (tz : Z) (d : ISODate) (t : ISOTime) : Z :=
  MakeDate (dayNumber d) (MakeTime (hour t) (minute t)) - tz.

(** The calendar day, in local time, on which the instant [t] falls. *)
Definition localDay (tz t : Z) : Z := (t + tz) / msPerDay.

(** ** date-fns *)

(** [startOfDay(date)]: local midnight of the day of [date]. *)
Definition startOfDay (tz t : Z) : Z := localDay tz t * msPerDay - tz.

Definition isSameDay (tz a b : Z) : bool := startOfDay tz a =? startOfDay tz b.

Definition isToday (tz now d : Z) : bool := isSameDay tz d now.

Definition isFuture (now d : Z) : bool := d >? now.

Definition isPast (now d : Z) : bool := d <? now.

(** ** The predicates of the filter switch *)

(** [case 'today'] *)
Definition today_pred (tz now : Z) (apt : Appointment) : bool :=
  isToday tz now (Date_of_date (appointment_date apt)).

(** [case 'upcoming'] *)
Definition upcoming_pred (tz now : Z) (apt : Appointment) : bool :=
  isFuture now (Date_of_date (appointment_date apt))
  || isToday tz now (Date_of_date (appointment_date apt)).

(** [case 'past'] *)
Definition past_pred (tz now : Z) (apt : Appointment) : bool :=
  isPast now (Date_of_date (appointment_date apt))
  && negb (isToday tz now (Date_of_date (appointment_date apt))).

(** [apt.status === key] *)
Definition status_pred (key : string) (apt : Appointment) : bool :=
  String.eqb (status apt) key.

(** The [switch (filter)] of [filterAppointments]: the array bound to
    [filtered] before it is sorted. *)
Definition select (tz now : Z) (key : string) (appointments : list Appointment)
  : list Appointment :=
  if String.eqb key "today" then List.filter (today_pred tz now) appointments
  else if String.eqb key "upcoming" then List.filter (upcoming_pred tz now) appointments
  else if String.eqb key "past" then List.filter (past_pred tz now) appointments
  else if String.eqb key "scheduled" then List.filter (status_pred "scheduled") appointments
  else if String.eqb key "completed" then List.filter (status_pred "completed") appointments
  else if String.eqb key "cancelled" then List.filter (status_pred "cancelled") appointments
  else appointments.

(** [true] when the switch reaches a [case] that builds a new array with
    [Array.prototype.filter]; [false] when [filtered] stays the very array
    [appointments]. *)
Definition fresh_array (key : string) : bool :=
  existsb (String.eqb key)
    ["today"; "upcoming"; "past"; "scheduled"; "completed"; "cancelled"].

(** ** Sorting *)

(** The comparator [(a, b) => dateA - dateB]. *)
Definition compareFn (tz : Z) (a b : Appointment) : Z :=
  Date_of_datetime tz (appointment_date a) (appointment_time a)
  - Date_of_datetime tz (appointment_date b) (appointment_time b).

Section ArraySort.
Context {A : Type}.
Variable cmp : A -> A -> Z.

(** [x] goes behind the elements that the comparator puts strictly before
    it, and before the first element that is equal or greater. *)
Fixpoint sort_insert (x : A) (l : list A) : list A :=
  match l with
  | [] => [x]
  | y :: l' => if cmp x y >? 0 then y :: sort_insert x l' else x :: l
  end.

(** [Array.prototype.sort(cmp)]: a stable sort; equal elements keep the
    order they have in the array. *)
Fixpoint Array_sort (l : list A) : list A :=
  match l with
  | [] => []
  | x :: l' => sort_insert x (Array_sort l')
  end.
End ArraySort.

(** ** Component state *)

Record State : Type := mkState {
  appointments : list Appointment;
  filteredAppointments : list Appointment;
  loading : bool;
  filter : string;
  error : string
}.

(** [filterAppointments()].  [filtered.sort] sorts in place: in the [default]
    branch [filtered] is the array held in [appointments], so that array is
    sorted as well. *)
Definition filterAppointments (tz now : Z) (st : State) : State :=
  let filtered := Array_sort (compareFn tz) (select tz now (filter st) (appointments st)) in
  {| appointments := if fresh_array (filter st) then appointments st else filtered;
     filteredAppointments := filtered;
     loading := loading st;
     filter := filter st;
     error := error st |}.

(** ** Status badge and label *)

(** [getStatusBadgeClass(status, appointmentDate)] *)
Definition getStatusBadgeClass (tz now : Z) (status : string) (appointmentDate : ISODate)
  : string :=
  let aptDate := Date_of_date appointmentDate in
  if String.eqb status "completed" then "badge-success"
  else if String.eqb status "cancelled" then "badge-danger"
  else if isPast now aptDate && negb (isToday tz now aptDate)
          && String.eqb status "scheduled" then "badge-warning"
  else if isToday tz now aptDate then "badge-info"
  else "badge-secondary".

(** [c.toUpperCase()] for one character of the ASCII range. *)
Definition toUpperCase (c : ascii) : ascii :=
  let n := nat_of_ascii c in
  if (97 <=? n)%nat && (n <=? 122)%nat then ascii_of_nat (n - 32) else c.

(** [status.charAt(0).toUpperCase() + status.slice(1)] *)
Definition capitalize (s : string) : string :=
  match s with
  | EmptyString => EmptyString
  | String c s' => String (toUpperCase c) s'
  end.

(** [getStatusDisplayText(status, appointmentDate)] *)
Definition getStatusDisplayText (tz now : Z) (status : string) (appointmentDate : ISODate)
  : string :=
  let aptDate := Date_of_date appointmentDate in
  if String.eqb status "scheduled" && isPast now aptDate && negb (isToday tz now aptDate)
  then "Missed"
  else capitalize status.

(** ** Quick stats *)

Definition todayCount (tz now : Z) (appointments : list Appointment) : nat :=
  List.length (List.filter (today_pred tz now) appointments).

Definition completedCount (appointments : list Appointment) : nat :=
  List.length (List.filter (fun apt => String.eqb (status apt) "completed") appointments).

Definition missedCount (tz now : Z) (appointments : list Appointment) : nat :=
  List.length (List.filter
    (fun apt =>
       isPast now (Date_of_date (appointment_date apt))
       && negb (isToday tz now (Date_of_date (appointment_date apt)))
       && String.eqb (status apt) "scheduled")
    appointments).

Definition upcomingScheduledCount (tz now : Z) (appointments : list Appointment) : nat :=
  List.length (List.filter
    (fun apt =>
       (isFuture now (Date_of_date (appointment_date apt))
        || isToday tz now (Date_of_date (appointment_date apt)))
       && String.eqb (status apt) "scheduled")
    appointments).

(** ** The store behind [window.electronAPI.appointments] *)

Inductive StoreError : Type := NotFound | StoreUnavailable.

(** The object [{ ...appointment, status: newStatus }] handed to [update]:
    all fields of the appointment that [find] returned, with [status]
    replaced; only [status] when [find] returned [undefined]. *)
Inductive Patch : Type :=
| FullObject (apt : Appointment)
| StatusOnly (newStatus : string).

Definition spread (appointment : option Appointment) (newStatus : string) : Patch :=
  match appointment with
  | Some apt => FullObject (with_status apt newStatus)
  | None => StatusOnly newStatus
  end.

(** The two calls the component makes, over the state [B] of the backend.
    [inl e] stands for a rejected promise. *)
Record StoreAdapter (B : Type) : Type := mkStoreAdapter {
  getAll : B -> StoreError + list Appointment;
  update : string -> Patch -> B -> StoreError + B
}.

Arguments getAll {B} _ _.
Arguments update {B} _ _ _ _.

Definition mockAppointment1 : Appointment :=
  {| id := "1"; patient_id := "1"; first_name := "John"; last_name := "Doe";
     appointment_date := mkDate 2024 2 20; appointment_time := mkTime 9 0;
     duration := 30; status := "scheduled"; reason := "Annual checkup";
     notes := ""; created_at := "2024-02-15T10:30:00Z" |}.

Definition mockAppointment2 : Appointment :=
  {| id := "2"; patient_id := "2"; first_name := "Sarah"; last_name := "Johnson";
     appointment_date := mkDate 2024 2 21; appointment_time := mkTime 14 30;
     duration := 45; status := "scheduled"; reason := "Follow-up consultation";
     notes := "Follow up on lab results"; created_at := "2024-02-16T14:20:00Z" |}.

Definition mockAppointments : list Appointment :=
  [mockAppointment1; mockAppointment2].

Definition set_appointments (st : State) (l : list Appointment) : State :=
  {| appointments := l;
     filteredAppointments := filteredAppointments st;
     loading := loading st;
     filter := filter st;
     error := error st |}.

Definition set_error (st : State) (msg : string) : State :=
  {| appointments := appointments st;
     filteredAppointments := filteredAppointments st;
     loading := loading st;
     filter := filter st;
     error := msg |}.

Definition set_loading (st : State) (v : bool) : State :=
  {| appointments := appointments st;
     filteredAppointments := filteredAppointments st;
     loading := v;
     filter := filter st;
     error := error st |}.

Section Handlers.
Context {B : Type}.
(** [window.electronAPI]: [None] when the page runs without a backend. *)
Variable electronAPI : option (StoreAdapter B).

(** [loadAppointments()] *)
Definition loadAppointments (b : B) (st : State) : State :=
  let st1 := set_error (set_loading st true) "" in
  match electronAPI with
  | Some api =>
      match getAll api b with
      | inr appointmentsData => set_loading (set_appointments st1 appointmentsData) false
      | inl _ =>
          set_loading (set_error st1 "Failed to load appointments. Please try again.") false
      end
  | None => set_loading (set_appointments st1 mockAppointments) false
  end.

(** [handleStatusChange(appointmentId, newStatus)], on the backend state
    and the component state. *)
Definition handleStatusChange (appointmentId newStatus : string) (w : B * State)
  : B * State :=
  let (b, st) := w in
  match electronAPI with
  | Some api =>
      let appointment :=
        List.find (fun apt => String.eqb (id apt) appointmentId) (appointments st) in
      match update api appointmentId (spread appointment newStatus) b with
      | inr b' => (b', loadAppointments b' st)
      | inl _ => (b, set_error st "Failed to update appointment status.")
      end
  | None =>
      (b, set_appointments st
            (List.map (fun apt => if String.eqb (id apt) appointmentId
                                  then with_status apt newStatus else apt)
                      (appointments st)))
  end.
End Handlers.

(** ** Auxiliary notions used in the statements *)

(** The combined (date, time) instant of an appointment. *)
Definition instant (tz : Z) (apt : Appointment) : Z :=
  Date_of_datetime tz (appointment_date apt) (appointment_time apt).

(** The sequence that [filterAppointments] stores in [filteredAppointments]
    when the collection is [x] and the active filter is [key]. *)
Definition filtered_view (tz now : Z) (key : string) (x : list Appointment)
  : list Appointment :=
  filteredAppointments
    (filterAppointments tz now
       {| appointments := x; filteredAppointments := [];
          loading := false; filter := key; error := "" |}).

Definition ISODate_eq_dec (a b : ISODate) : {a = b} + {a <> b}.
Proof. decide equality; apply Z.eq_dec. Defined.

Definition ISOTime_eq_dec (a b : ISOTime) : {a = b} + {a <> b}.
Proof. decide equality; apply Z.eq_dec. Defined.

Definition Appointment_eq_dec (a b : Appointment) : {a = b} + {a <> b}.
Proof.
  decide equality;
    solve [ apply string_dec | apply Z.eq_dec
          | apply ISODate_eq_dec | apply ISOTime_eq_dec ].
Defined.

Definition memb (a : Appointment) (l : list Appointment) : bool :=
  if in_dec Appointment_eq_dec a l then true else false.

(** The members of [l1] that also occur in [l2]. *)
Definition inter (l1 l2 : list Appointment) : list Appointment :=
  List.filter (fun a => memb a l2) l1.

(** What a store does with a patch for one record. *)
Definition merge (apt : Appointment) (p : Patch) : Appointment :=
  match p with
  | FullObject o => o
  | StatusOnly s => with_status apt s
  end.

(** An adapter follows its interface when a successful [update] rewrites the
    records carrying the given id with the patch and touches nothing else,
    as seen through [getAll]. *)
Definition applies_patch {B : Type} (api : StoreAdapter B) : Prop :=
  forall aid p b b' x,
    update api aid p b = inr b' ->
    getAll api b = inr x ->
    getAll api b' =
      inr (List.map (fun apt => if String.eqb (id apt) aid then merge apt p else apt) x).

(** Modelled from the spec: the Store Adapter itself is not part of the
    component's source.  This one keeps the collection in memory; [update]
    fails with [NotFound] when no record carries the id, and otherwise
    rewrites the records carrying it. *)
Definition memoryAdapter : StoreAdapter (list Appointment) :=
  {| getAll := fun b => inr b;
     update := fun aid p b =>
       if existsb (fun apt => String.eqb (id apt) aid) b
       then inr (List.map (fun apt => if String.eqb (id apt) aid then merge apt p else apt) b)
       else inl NotFound |}.

(** Ascending order of a numeric key. *)
Definition key_le {A : Type} (key : A -> Z) (a b : A) : Prop := key a <= key b.

(** The tie rule in the words of the specification: of two appointments
    with equal instants, the one placed first has the smaller id. *)
Definition ties_by_id (tz : Z) (l : list Appointment) : Prop :=
  forall (i j : nat) (a b : Appointment),
    (i < j)%nat -> nth_error l i = Some a -> nth_error l j = Some b ->
    instant tz a = instant tz b -> String.leb (id a) (id b) = true.

(** The keys that the filter buttons can set. *)
Definition filter_keys : list string :=
  ["all"; "today"; "upcoming"; "past"; "scheduled"; "completed"; "cancelled"].

(** The handler has signalled a failure of the status change: the message
    of its [catch] is in [error]. *)
Definition status_change_failed {B : Type} (w : B * State) : Prop :=
  error (snd w) = "Failed to update appointment status.".

(** No record of the collection carries the id. *)
Definition absent (aid : string) (x : list Appointment) : Prop :=
  forall apt, In apt x -> id apt <> aid.

(** [a'] agrees with [a] on every field other than [status]. *)
Definition same_but_status (a a' : Appointment) : Prop :=
  id a' = id a /\ patient_id a' = patient_id a
  /\ first_name a' = first_name a /\ last_name a' = last_name a
  /\ appointment_date a' = appointment_date a
  /\ appointment_time a' = appointment_time a
  /\ duration a' = duration a /\ reason a' = reason a
  /\ notes a' = notes a /\ created_at a' = created_at a.

(** With a backend: the adapter follows its interface, the component's
    snapshot holds the records that the store holds, in whatever order (the
    [default] branch of [filterAppointments] reorders the snapshot in
    place), and ids are unique in it. *)
Definition backend_in_sync {B : Type} (electronAPI : option (StoreAdapter B))
           (b : B) (st : State) : Prop :=
  match electronAPI with
  | None => True
  | Some api =>
      applies_patch api
      /\ (exists x, getAll api b = inr x /\ Permutation x (appointments st))
      /\ NoDup (List.map id (appointments st))
  end.

(** With a backend: the [update] call of the handler is accepted. *)
Definition update_accepted {B : Type} (electronAPI : option (StoreAdapter B))
           (b : B) (st : State) (appointmentId newStatus : string) : Prop :=
  match electronAPI with
  | None => True
  | Some api =>
      exists b',
        update api appointmentId
          (spread (List.find (fun apt => String.eqb (id apt) appointmentId)
                             (appointments st)) newStatus) b
        = inr b'
  end.

(** ** Deleting an appointment *)

(** The whole object [window.electronAPI.appointments]: the two calls above
    and [delete]. *)
Record AppointmentsAPI (B : Type) : Type := mkAppointmentsAPI {
  adapter : StoreAdapter B;
  delete : string -> B -> StoreError + B
}.

Arguments adapter {B} _.
Arguments delete {B} _ _ _.

(** The text shown by [window.confirm]. *)
Definition confirmMessage (patientName : string) : string :=
  "Are you sure you want to delete the appointment for " ++ patientName
  ++ "? This action cannot be undone.".

(** [handleDeleteAppointment(appointmentId, patientName)].  [confirm] is
    [window.confirm]: the answer of the user to the text shown. *)
Definition handleDeleteAppointment {B : Type} (confirm : string -> bool)
           (electronAPI : option (AppointmentsAPI B))
           (appointmentId patientName : string) (w : B * State) : B * State :=
  let (b, st) := w in
  if confirm (confirmMessage patientName) then
    match electronAPI with
    | Some api =>
        match delete api appointmentId b with
        | inr b' => (b', loadAppointments (Some (adapter api)) b' st)
        | inl _ => (b, set_error st "Failed to delete appointment.")
        end
    | None =>
        (b, set_appointments st
              (List.filter (fun apt => negb (String.eqb (id apt) appointmentId))
                           (appointments st)))
    end
  else (b, st).

(** The function that the in-memory branch of [handleStatusChange] maps
    over the collection. *)
Definition change_status (appointmentId newStatus : string) (apt : Appointment)
  : Appointment :=
  if String.eqb (id apt) appointmentId then with_status apt newStatus else apt.

(** The five classes that [getStatusBadgeClass] can return. *)
Definition badge_classes : list string :=
  ["badge-success"; "badge-danger"; "badge-warning"; "badge-info"; "badge-secondary"].

(** * Properties *)

(** ** The stable sort *)

Section ArraySortFacts.
Context {A : Type}.
Variable cmp : A -> A -> Z.

Lemma sort_insert_perm (x : A) (l : list A) :
  Permutation (x :: l) (sort_insert cmp x l).
Proof.
  induction l as [|y l IH]; simpl.
  - apply Permutation_refl.
  - destruct (cmp x y >? 0).
    + eapply perm_trans; [apply perm_swap|]. now apply perm_skip.
    + apply Permutation_refl.
Qed.

Lemma Array_sort_perm (l : list A) : Permutation l (Array_sort cmp l).
Proof.
  induction l as [|x l IH]; simpl.
  - constructor.
  - eapply perm_trans; [apply perm_skip, IH|]. apply sort_insert_perm.
Qed.

Lemma Array_sort_In (l : list A) (a : A) : In a (Array_sort cmp l) <-> In a l.
Proof.
  split; apply Permutation_in;
    [apply Permutation_sym|]; apply Array_sort_perm.
Qed.

Lemma Array_sort_length (l : list A) :
  List.length (Array_sort cmp l) = List.length l.
Proof. symmetry. apply Permutation_length, Array_sort_perm. Qed.

(** The comparator is the difference of a numeric key, as in
    [dateA - dateB]. *)
Variable key : A -> Z.
Hypothesis cmp_key : forall a b, cmp a b = key a - key b.

Lemma sort_insert_sorted (x : A) (l : list A) :
  StronglySorted (key_le key) l -> StronglySorted (key_le key) (sort_insert cmp x l).
Proof.
  induction 1 as [|y l Hs IH Hall]; simpl.
  - repeat constructor.
  - destruct (cmp x y >? 0) eqn:E.
    + constructor; [exact IH|].
      apply (Permutation_Forall (sort_insert_perm x l)).
      constructor; [|exact Hall].
      unfold key_le. rewrite cmp_key in E. lia.
    + assert (Hxy : key x <= key y) by (rewrite cmp_key in E; lia).
      constructor; [now constructor|].
      constructor; [exact Hxy|].
      eapply Forall_impl; [|exact Hall].
      unfold key_le. intros; lia.
Qed.

Lemma Array_sort_sorted (l : list A) : StronglySorted (key_le key) (Array_sort cmp l).
Proof.
  induction l as [|x l IH]; simpl.
  - constructor.
  - now apply sort_insert_sorted.
Qed.

(** Elements that share a key keep their relative order. *)
Lemma sort_insert_stable (k : Z) (x : A) (l : list A) :
  List.filter (fun a => key a =? k) (sort_insert cmp x l)
  = List.filter (fun a => key a =? k) (x :: l).
Proof.
  induction l as [|y l IH]; [reflexivity|].
  cbn [sort_insert]. destruct (cmp x y >? 0) eqn:E; [|reflexivity].
  cbn [List.filter] in *. rewrite IH.
  rewrite cmp_key in E.
  destruct (key x =? k) eqn:Ex, (key y =? k) eqn:Ey; try reflexivity.
  lia.
Qed.

Lemma Array_sort_stable (k : Z) (l : list A) :
  List.filter (fun a => key a =? k) (Array_sort cmp l)
  = List.filter (fun a => key a =? k) l.
Proof.
  induction l as [|x l IH]; [reflexivity|].
  cbn [Array_sort]. rewrite sort_insert_stable.
  cbn [List.filter]. now rewrite IH.
Qed.

(** Sortedness together with stability fixes the result: any two sorted
    arrangements with the same ties are equal, so the way an engine
    implements its stable sort does not matter. *)
Lemma stable_sorted_unique (l1 l2 : list A) :
  StronglySorted (key_le key) l1 -> StronglySorted (key_le key) l2 ->
  (forall k, List.filter (fun a => key a =? k) l1
             = List.filter (fun a => key a =? k) l2) ->
  l1 = l2.
Proof.
  intros H1; revert l2.
  induction H1 as [|a l1 Hs1 IH Ha]; intros l2 H2 Hf.
  - destruct l2 as [|b l2]; [reflexivity|].
    specialize (Hf (key b)). cbn in Hf. rewrite Z.eqb_refl in Hf. discriminate.
  - destruct H2 as [|b l2 Hs2 Hb].
    + specialize (Hf (key a)). cbn in Hf. rewrite Z.eqb_refl in Hf. discriminate.
    + assert (Hab : key a = key b).
      { assert (In b (a :: l1)) as Hin1.
        { apply (proj1 (filter_In (fun c => key c =? key b) b (a :: l1))).
          rewrite Hf. cbn. rewrite Z.eqb_refl. now left. }
        assert (In a (b :: l2)) as Hin2.
        { apply (proj1 (filter_In (fun c => key c =? key a) a (b :: l2))).
          rewrite <- Hf. cbn. rewrite Z.eqb_refl. now left. }
        rewrite Forall_forall in Ha, Hb. unfold key_le in Ha, Hb.
        destruct Hin1 as [->|Hin1]; [reflexivity|].
        destruct Hin2 as [->|Hin2]; [reflexivity|].
        specialize (Ha _ Hin1). specialize (Hb _ Hin2). lia. }
      assert (a = b) as ->.
      { specialize (Hf (key a)). cbn in Hf.
        rewrite Z.eqb_refl in Hf. rewrite <- Hab, Z.eqb_refl in Hf.
        now injection Hf. }
      f_equal. apply IH; [exact Hs2|].
      intros k. specialize (Hf k). cbn in Hf.
      destruct (key b =? k); [now injection Hf|exact Hf].
Qed.
End ArraySortFacts.

(** ** Calendar days *)

Example MakeDay_epoch : MakeDay 1970 1 1 = 0.
Proof. reflexivity. Qed.

Example MakeDay_2024_02_20 : MakeDay 2024 2 20 = 19773.
Proof. reflexivity. Qed.

Example MakeDay_leap_day : MakeDay 2024 3 1 - MakeDay 2024 2 28 = 2.
Proof. reflexivity. Qed.

Lemma isToday_localDay (tz now d : Z) :
  isToday tz now d = (localDay tz d =? localDay tz now).
Proof.
  unfold isToday, isSameDay, startOfDay, msPerDay.
  destruct (localDay tz d =? localDay tz now) eqn:E; lia.
Qed.

Lemma localDay_bounds (tz t : Z) :
  localDay tz t * msPerDay <= t + tz < (localDay tz t + 1) * msPerDay.
Proof.
  unfold localDay, msPerDay.
  pose proof (Z.div_mod (t + tz) 86400000 ltac:(lia)).
  pose proof (Z.mod_pos_bound (t + tz) 86400000 ltac:(lia)).
  lia.
Qed.

Lemma localDay_unique (tz t n : Z) :
  n * msPerDay <= t + tz < (n + 1) * msPerDay -> localDay tz t = n.
Proof.
  intros H. pose proof (localDay_bounds tz t) as Hb.
  unfold msPerDay in *. nia.
Qed.

(** East of Greenwich (and at UTC) the UTC midnight of a date falls on that
    same date in local time. *)
Lemma localDay_Date_of_date (tz : Z) (d : ISODate) :
  0 <= tz < msPerDay -> localDay tz (Date_of_date d) = dayNumber d.
Proof.
  intros H. apply localDay_unique.
  unfold Date_of_date, MakeDate, msPerDay in *. lia.
Qed.

(** West of Greenwich it falls on the evening before. *)
Lemma localDay_Date_of_date_west (tz : Z) (d : ISODate) :
  - msPerDay <= tz < 0 -> localDay tz (Date_of_date d) = dayNumber d - 1.
Proof.
  intros H. apply localDay_unique.
  unfold Date_of_date, MakeDate, msPerDay in *. lia.
Qed.

(** X1.  With a local offset in [0, 24h) the three predicates of the switch
    follow the calendar: before today's date, on it, after it. *)
Lemma classification_east_of_UTC (tz now : Z) (apt : Appointment) :
  0 <= tz < msPerDay ->
  (dayNumber (appointment_date apt) < localDay tz now ->
     past_pred tz now apt = true /\ today_pred tz now apt = false
     /\ upcoming_pred tz now apt = false)
  /\ (dayNumber (appointment_date apt) = localDay tz now ->
     today_pred tz now apt = true /\ upcoming_pred tz now apt = true
     /\ past_pred tz now apt = false)
  /\ (localDay tz now < dayNumber (appointment_date apt) ->
     upcoming_pred tz now apt = true /\ today_pred tz now apt = false
     /\ past_pred tz now apt = false).
Proof.
  intros Htz.
  unfold past_pred, today_pred, upcoming_pred, isPast, isFuture.
  rewrite isToday_localDay, (localDay_Date_of_date tz _ Htz).
  pose proof (localDay_bounds tz now) as Hb.
  unfold Date_of_date, MakeDate, msPerDay in *.
  set (n := dayNumber (appointment_date apt)) in *.
  set (t := localDay tz now) in *.
  repeat split.
  all: destruct (n =? t) eqn:E1; try lia; cbn.
  all: rewrite ?andb_true_r, ?andb_false_r, ?orb_true_r, ?orb_false_r; lia.
Qed.

(** In every zone the predicates follow the local day on which the parsed
    instant [new Date(apt.appointment_date)] falls. *)
Lemma classification_by_instant (tz now : Z) (apt : Appointment) :
  let d := Date_of_date (appointment_date apt) in
  (localDay tz d < localDay tz now -> past_pred tz now apt = true)
  /\ (localDay tz d = localDay tz now ->
      today_pred tz now apt = true /\ upcoming_pred tz now apt = true)
  /\ (localDay tz now < localDay tz d -> upcoming_pred tz now apt = true).
Proof.
  cbv zeta. unfold past_pred, today_pred, upcoming_pred, isPast, isFuture.
  rewrite isToday_localDay.
  pose proof (localDay_bounds tz now) as Hn.
  pose proof (localDay_bounds tz (Date_of_date (appointment_date apt))) as Hd.
  set (d := Date_of_date (appointment_date apt)) in *.
  set (m := localDay tz d) in *. set (t := localDay tz now) in *.
  unfold msPerDay in *.
  repeat split; intros.
  all: destruct (m =? t) eqn:E; try lia; cbn.
  all: rewrite ?andb_true_r, ?orb_true_r, ?orb_false_r; try reflexivity; nia.
Qed.

(** X2.  The cases "before today" and "after today" hold in every zone within a
    day of UTC. *)
Lemma classification_before_after (tz now : Z) (apt : Appointment) :
  - msPerDay <= tz < msPerDay ->
  (dayNumber (appointment_date apt) < localDay tz now -> past_pred tz now apt = true)
  /\ (localDay tz now < dayNumber (appointment_date apt) ->
      upcoming_pred tz now apt = true).
Proof.
  intros Htz.
  destruct (classification_by_instant tz now apt) as (Hp & Ht & Hu). cbv zeta in *.
  assert (Hd : localDay tz (Date_of_date (appointment_date apt))
               = dayNumber (appointment_date apt)
               \/ localDay tz (Date_of_date (appointment_date apt))
                  = dayNumber (appointment_date apt) - 1).
  { destruct (Z_lt_le_dec tz 0).
    - right. apply localDay_Date_of_date_west. lia.
    - left. apply localDay_Date_of_date. lia. }
  split; intros H.
  - apply Hp. lia.
  - destruct (Z.eq_dec (localDay tz (Date_of_date (appointment_date apt)))
                       (localDay tz now)) as [E|E].
    + now apply Ht.
    + apply Hu. lia.
Qed.

(** C1 (the code departs from the claim).  On a machine five hours west of
    Greenwich, at noon of 2024-02-20, the appointment dated 2024-02-20 has
    the date of [now], yet the ['today'] predicate rejects it and the
    ['past'] predicate accepts it: [new Date('2024-02-20')] is UTC midnight,
    which is the evening of 2024-02-19 in local time. *)
Theorem classifier_today_west_of_UTC :
  let tz := -5 * msPerHour in
  let now := Date_of_datetime tz (mkDate 2024 2 20) (mkTime 12 0) in
  let apt := mockAppointment1 in
  appointment_date apt = mkDate 2024 2 20
  /\ localDay tz now = dayNumber (appointment_date apt)
  /\ today_pred tz now apt = false
  /\ upcoming_pred tz now apt = false
  /\ past_pred tz now apt = true.
Proof. vm_compute. repeat split. Qed.

(** ** Status badge and label *)

Lemma capitalize_completed : capitalize "completed" = "Completed".
Proof. reflexivity. Qed.

Lemma capitalize_no_show : capitalize "no-show" = "No-show".
Proof. reflexivity. Qed.

(** X3.  Rules 4 and 5: when none of the first three rules applies, the label is
    the capitalised status and the class depends on [isToday] alone. *)
Lemma status_evaluator_fallthrough (tz now : Z) (st : string) (d : ISODate) :
  st <> "completed" -> st <> "cancelled" ->
  (st = "scheduled" ->
   isPast now (Date_of_date d) && negb (isToday tz now (Date_of_date d)) = false) ->
  getStatusDisplayText tz now st d = capitalize st
  /\ getStatusBadgeClass tz now st d
     = if isToday tz now (Date_of_date d) then "badge-info" else "badge-secondary".
Proof.
  intros Hc Hx Hs. unfold getStatusDisplayText, getStatusBadgeClass. cbv zeta.
  apply String.eqb_neq in Hc, Hx. rewrite Hc, Hx.
  destruct (String.eqb st "scheduled") eqn:E.
  - apply String.eqb_eq in E. specialize (Hs E).
    destruct (isPast now (Date_of_date d)), (isToday tz now (Date_of_date d));
      cbn in *; try discriminate; now split.
  - destruct (isPast now (Date_of_date d)), (isToday tz now (Date_of_date d));
      cbn; now split.
Qed.

(** C2.  [completed] and [cancelled] decide label and class whatever the
    date; a [scheduled] appointment that the ['past'] predicate accepts is
    labelled "Missed" with class [badge-warning]; the appointment of
    2024-02-20 09:00, status [scheduled], seen on 2024-02-25, is such a one. *)
Theorem status_evaluator_rules (tz now : Z) (d : ISODate) :
  (getStatusDisplayText tz now "completed" d = "Completed"
   /\ getStatusBadgeClass tz now "completed" d = "badge-success")
  /\ (getStatusDisplayText tz now "cancelled" d = "Cancelled"
      /\ getStatusBadgeClass tz now "cancelled" d = "badge-danger")
  /\ (forall apt : Appointment,
        status apt = "scheduled" -> past_pred tz now apt = true ->
        getStatusDisplayText tz now (status apt) (appointment_date apt) = "Missed"
        /\ getStatusBadgeClass tz now (status apt) (appointment_date apt) = "badge-warning")
  /\ (- msPerDay < tz < msPerDay -> localDay tz now = MakeDay 2024 2 25 ->
      appointment_date mockAppointment1 = mkDate 2024 2 20
      /\ appointment_time mockAppointment1 = mkTime 9 0
      /\ status mockAppointment1 = "scheduled"
      /\ past_pred tz now mockAppointment1 = true
      /\ today_pred tz now mockAppointment1 = false
      /\ getStatusDisplayText tz now (status mockAppointment1)
           (appointment_date mockAppointment1) = "Missed"
      /\ getStatusBadgeClass tz now (status mockAppointment1)
           (appointment_date mockAppointment1) = "badge-warning").
Proof.
  assert (Hmissed : forall apt : Appointment,
             status apt = "scheduled" -> past_pred tz now apt = true ->
             getStatusDisplayText tz now (status apt) (appointment_date apt) = "Missed"
             /\ getStatusBadgeClass tz now (status apt) (appointment_date apt)
                = "badge-warning").
  { intros apt Hs Hp. unfold past_pred in Hp.
    unfold getStatusDisplayText, getStatusBadgeClass. cbv zeta.
    rewrite Hs. change (String.eqb "scheduled" "scheduled") with true.
    change (String.eqb "scheduled" "completed") with false.
    change (String.eqb "scheduled" "cancelled") with false.
    rewrite andb_true_l, Hp. now split. }
  split; [now split|]. split; [now split|]. split; [exact Hmissed|].
  intros Htz Hnow.
  assert (Hp : past_pred tz now mockAppointment1 = true).
  { unfold past_pred, isPast. rewrite isToday_localDay, Hnow.
    pose proof (localDay_bounds tz now) as Hb. rewrite Hnow in Hb.
    pose proof (localDay_bounds tz (Date_of_date (appointment_date mockAppointment1))) as Hd.
    change (Date_of_date (appointment_date mockAppointment1)) with (19773 * 86400000) in *.
    change (MakeDay 2024 2 25) with 19778 in *.
    unfold msPerDay in *.
    set (n := localDay tz (19773 * 86400000)) in *.
    apply andb_true_iff; split; [lia|].
    apply negb_true_iff, Z.eqb_neq. lia. }
  assert (Ht : today_pred tz now mockAppointment1 = false).
  { unfold past_pred in Hp. unfold today_pred.
    apply andb_true_iff in Hp. destruct Hp as [_ Hp]. now apply negb_true_iff. }
  destruct (Hmissed mockAppointment1 eq_refl Hp) as [H1 H2].
  repeat split; assumption.
Qed.

Lemma status_evaluator_rules_witness :
  past_pred 0 (Date_of_datetime 0 (mkDate 2024 2 25) (mkTime 0 0)) mockAppointment1 = true
  /\ getStatusDisplayText 0 (Date_of_datetime 0 (mkDate 2024 2 25) (mkTime 0 0))
       (status mockAppointment1) (appointment_date mockAppointment1) = "Missed"
  /\ getStatusBadgeClass 0 (Date_of_datetime 0 (mkDate 2024 2 25) (mkTime 0 0))
       (status mockAppointment1) (appointment_date mockAppointment1) = "badge-warning".
Proof.
  destruct (status_evaluator_rules 0 (Date_of_datetime 0 (mkDate 2024 2 25) (mkTime 0 0))
              (mkDate 2024 2 20)) as (_ & _ & Hrule & Hscen).
  assert (Htz : - msPerDay < 0 < msPerDay) by (unfold msPerDay; lia).
  assert (Hnow : localDay 0 (Date_of_datetime 0 (mkDate 2024 2 25) (mkTime 0 0))
                 = MakeDay 2024 2 25) by reflexivity.
  destruct (Hscen Htz Hnow) as (_ & _ & Hs & Hp & _ & _ & _).
  split; [exact Hp|].
  exact (Hrule mockAppointment1 Hs Hp).
Defined.

(** ** Chronological order *)

Lemma compareFn_instant (tz : Z) (a b : Appointment) :
  compareFn tz a b = instant tz a - instant tz b.
Proof. reflexivity. Qed.

(** C3 (as stated, fails).  Two appointments at the same instant, the one
    with id "2" stored before the one with id "1": the sort leaves them in
    that order, so the larger id comes first. *)
Lemma sort_ties_not_by_id :
  ~ ties_by_id 0
      (Array_sort (compareFn 0)
         [ mkAppointment "2" "2" "Sarah" "Johnson" (mkDate 2024 2 20) (mkTime 9 0)
             45 "scheduled" "" "" "";
           mockAppointment1 ]).
Proof.
  intros H.
  specialize (H 0%nat 1%nat _ _ ltac:(lia) eq_refl eq_refl eq_refl).
  vm_compute in H. discriminate.
Qed.

(** C3 (amended).  The sorted sequence is a rearrangement of the input in
    ascending order of the combined instant; appointments with equal
    instants keep the order they had in the input; on one date, 09:00 is
    placed before 14:30 whichever came first. *)
Theorem sort_chronological_stable (tz : Z) (x : list Appointment) :
  Permutation x (Array_sort (compareFn tz) x)
  /\ StronglySorted (key_le (instant tz)) (Array_sort (compareFn tz) x)
  /\ (forall k : Z,
        List.filter (fun a => instant tz a =? k) (Array_sort (compareFn tz) x)
        = List.filter (fun a => instant tz a =? k) x)
  /\ (forall a b : Appointment,
        appointment_date a = appointment_date b ->
        appointment_time a = mkTime 9 0 -> appointment_time b = mkTime 14 30 ->
        Array_sort (compareFn tz) [b; a] = [a; b]
        /\ Array_sort (compareFn tz) [a; b] = [a; b]).
Proof.
  split; [apply Array_sort_perm|].
  split; [apply Array_sort_sorted, compareFn_instant|].
  split; [intros k; apply Array_sort_stable, compareFn_instant|].
  intros a b Hd Ha Hb. cbn [Array_sort sort_insert].
  unfold compareFn, Date_of_datetime, MakeDate. rewrite Hd, Ha, Hb. cbn.
  replace (_ >? 0) with true by lia.
  replace (_ >? 0) with false by lia.
  now split.
Qed.

Lemma sort_chronological_stable_witness :
  Array_sort (compareFn 0)
    [ mkAppointment "2" "2" "Sarah" "Johnson" (mkDate 2024 2 20) (mkTime 14 30)
        45 "scheduled" "" "" "";
      mockAppointment1 ]
  = [ mockAppointment1;
      mkAppointment "2" "2" "Sarah" "Johnson" (mkDate 2024 2 20) (mkTime 14 30)
        45 "scheduled" "" "" "" ].
Proof.
  destruct (sort_chronological_stable 0 []) as (_ & _ & _ & H).
  apply (H mockAppointment1
           (mkAppointment "2" "2" "Sarah" "Johnson" (mkDate 2024 2 20) (mkTime 14 30)
              45 "scheduled" "" "" "")); reflexivity.
Defined.

(** ** The filter switch *)

Lemma filtered_view_eq (tz now : Z) (key : string) (x : list Appointment) :
  filtered_view tz now key x = Array_sort (compareFn tz) (select tz now key x).
Proof. reflexivity. Qed.

Lemma filtered_view_In (tz now : Z) (key : string) (x : list Appointment)
      (apt : Appointment) :
  In apt (filtered_view tz now key x) <-> In apt (select tz now key x).
Proof. rewrite filtered_view_eq. apply Array_sort_In. Qed.

Lemma select_default (tz now : Z) (key : string) (x : list Appointment) :
  fresh_array key = false -> select tz now key x = x.
Proof.
  unfold fresh_array, select. cbn [existsb].
  destruct (String.eqb key "today"); [discriminate|].
  destruct (String.eqb key "upcoming"); [discriminate|].
  destruct (String.eqb key "past"); [discriminate|].
  destruct (String.eqb key "scheduled"); [discriminate|].
  destruct (String.eqb key "completed"); [discriminate|].
  destruct (String.eqb key "cancelled"); [discriminate|].
  reflexivity.
Qed.

Lemma fresh_array_unknown (key : string) :
  ~ In key filter_keys -> fresh_array key = false.
Proof.
  intros H. unfold fresh_array.
  destruct (existsb _ _) eqn:E; [|reflexivity].
  apply existsb_exists in E. destruct E as (k & Hin & Hk).
  apply String.eqb_eq in Hk. subst k. exfalso. apply H. now right.
Qed.

(** C5.  The switch leaves the collection as it is under ['all'], and every
    key outside the fixed set takes the same [default] branch: same
    selection, same stored state.  What is then displayed is the collection
    itself, in chronological order: in the [default] branch
    [filteredAppointments] and [appointments] are one array. *)
Theorem filter_all_identity (tz now : Z) (x : list Appointment) (key : string) :
  select tz now "all" x = x
  /\ Permutation x (filtered_view tz now "all" x)
  /\ (forall st : State,
        filter st = "all" ->
        filteredAppointments (filterAppointments tz now st)
        = appointments (filterAppointments tz now st))
  /\ (~ In key filter_keys ->
      select tz now key x = select tz now "all" x
      /\ filtered_view tz now key x = filtered_view tz now "all" x
      /\ forall st : State,
           filter st = key ->
           filteredAppointments (filterAppointments tz now st)
           = appointments (filterAppointments tz now st)).
Proof.
  split; [reflexivity|].
  split; [rewrite filtered_view_eq; apply Array_sort_perm|].
  split.
  { intros st Hst. unfold filterAppointments.
    cbn [appointments filteredAppointments]. now rewrite Hst. }
  intros Hk. pose proof (fresh_array_unknown key Hk) as Hf.
  split; [now rewrite select_default|].
  split; [now rewrite !filtered_view_eq, select_default|].
  intros st Hst. unfold filterAppointments.
  cbn [appointments filteredAppointments]. now rewrite Hst, Hf.
Qed.

Lemma filter_all_identity_witness :
  select 0 0 "no-show" mockAppointments = mockAppointments.
Proof.
  destruct (filter_all_identity 0 0 mockAppointments "no-show") as (H1 & _ & _ & H).
  destruct H as (H2 & _).
  - cbn. intros [E|[E|[E|[E|[E|[E|[E|[]]]]]]]]; discriminate E.
  - rewrite H2. exact H1.
Defined.

Lemma select_today (tz now : Z) (x : list Appointment) :
  select tz now "today" x = List.filter (today_pred tz now) x.
Proof. reflexivity. Qed.

Lemma select_upcoming (tz now : Z) (x : list Appointment) :
  select tz now "upcoming" x = List.filter (upcoming_pred tz now) x.
Proof. reflexivity. Qed.

Lemma select_past (tz now : Z) (x : list Appointment) :
  select tz now "past" x = List.filter (past_pred tz now) x.
Proof. reflexivity. Qed.

Lemma select_status (tz now : Z) (key : string) (x : list Appointment) :
  In key ["scheduled"; "completed"; "cancelled"] ->
  select tz now key x = List.filter (status_pred key) x.
Proof.
  intros [<-|[<-|[<-|[]]]]; reflexivity.
Qed.

(** C7.  Under the keys [scheduled], [completed] and [cancelled] the result
    holds exactly the appointments whose stored status is the key, whatever
    the instant and the time zone; a scheduled appointment that is shown as
    "Missed" is among them; of one scheduled and one completed appointment
    the ['scheduled'] filter returns the scheduled one alone. *)
Theorem filter_by_raw_status (tz now : Z) (key : string) (x : list Appointment) :
  In key ["scheduled"; "completed"; "cancelled"] ->
  select tz now key x = List.filter (fun apt => String.eqb (status apt) key) x
  /\ (forall apt : Appointment,
        In apt (filtered_view tz now key x) <-> In apt x /\ status apt = key)
  /\ (forall apt : Appointment,
        In apt x -> status apt = "scheduled" ->
        getStatusDisplayText tz now (status apt) (appointment_date apt) = "Missed" ->
        In apt (filtered_view tz now "scheduled" x))
  /\ (forall s c : Appointment,
        status s = "scheduled" -> status c = "completed" ->
        filtered_view tz now "scheduled" [s; c] = [s]
        /\ filtered_view tz now "scheduled" [c; s] = [s]).
Proof.
  intros Hkey.
  assert (Hin : forall k apt, In k ["scheduled"; "completed"; "cancelled"] ->
            (In apt (filtered_view tz now k x) <-> In apt x /\ status apt = k)).
  { intros k apt Hk. rewrite filtered_view_In, (select_status tz now k x Hk), filter_In.
    unfold status_pred. now rewrite String.eqb_eq. }
  split; [now apply select_status|].
  split; [intros apt; now apply Hin|].
  split.
  - intros apt Hx Hs _. apply Hin; [now left | now split].
  - intros s c Hs Hc. rewrite !filtered_view_eq.
    change (select tz now "scheduled") with (List.filter (status_pred "scheduled")).
    cbn [List.filter]. unfold status_pred. rewrite Hs, Hc. now split.
Qed.

Lemma filter_by_raw_status_witness :
  filtered_view 0 0 "scheduled"
    [mockAppointment1; with_status mockAppointment2 "completed"]
  = [mockAppointment1].
Proof.
  destruct (filter_by_raw_status 0 0 "scheduled" []) as (_ & _ & _ & H).
  - now left.
  - apply (H mockAppointment1 (with_status mockAppointment2 "completed")); reflexivity.
Defined.

(** X26.  Whatever the ['today'] filter shows, the ['upcoming'] filter shows
    too; an appointment of the collection that [isToday] accepts is in both
    results, whatever its status. *)
Theorem today_subset_upcoming (tz now : Z) (x : list Appointment) (apt : Appointment) :
  (In apt (filtered_view tz now "today" x) -> In apt (filtered_view tz now "upcoming" x))
  /\ (In apt x -> today_pred tz now apt = true ->
      In apt (filtered_view tz now "today" x)
      /\ In apt (filtered_view tz now "upcoming" x)).
Proof.
  rewrite !filtered_view_In, select_today, select_upcoming, !filter_In.
  unfold upcoming_pred, today_pred. split.
  - intros [Hx Ht]. split; [exact Hx|]. rewrite Ht. apply orb_true_r.
  - intros Hx Ht. rewrite Ht, orb_true_r. now repeat split.
Qed.

Lemma today_subset_upcoming_witness :
  In mockAppointment1
    (filtered_view 0 (Date_of_datetime 0 (mkDate 2024 2 20) (mkTime 8 0)) "upcoming"
       mockAppointments).
Proof.
  destruct (today_subset_upcoming 0 (Date_of_datetime 0 (mkDate 2024 2 20) (mkTime 8 0))
              mockAppointments mockAppointment1) as [Hsub _].
  apply Hsub. vm_compute. now left.
Defined.

(** C8 (the code departs from the claim).  On a machine five hours west of
    Greenwich, at noon of 2024-02-20, the sample appointment dated
    2024-02-20 is dated today, yet it is a row of neither the ['today'] nor
    the ['upcoming'] view: both show the appointment dated 2024-02-21 alone,
    and the one dated today is a row of the ['past'] view. *)
Theorem dated_today_in_neither_view :
  let tz := -5 * msPerHour in
  let now := Date_of_datetime tz (mkDate 2024 2 20) (mkTime 12 0) in
  In mockAppointment1 mockAppointments
  /\ dayNumber (appointment_date mockAppointment1) = localDay tz now
  /\ filtered_view tz now "today" mockAppointments = [mockAppointment2]
  /\ filtered_view tz now "upcoming" mockAppointments = [mockAppointment2]
  /\ filtered_view tz now "past" mockAppointments = [mockAppointment1]
  /\ ~ In mockAppointment1 (filtered_view tz now "today" mockAppointments)
  /\ ~ In mockAppointment1 (filtered_view tz now "upcoming" mockAppointments).
Proof.
  cbv zeta.
  assert (Ht : filtered_view (-5 * msPerHour)
                 (Date_of_datetime (-5 * msPerHour) (mkDate 2024 2 20) (mkTime 12 0))
                 "today" mockAppointments = [mockAppointment2]) by (vm_compute; reflexivity).
  assert (Hu : filtered_view (-5 * msPerHour)
                 (Date_of_datetime (-5 * msPerHour) (mkDate 2024 2 20) (mkTime 12 0))
                 "upcoming" mockAppointments = [mockAppointment2]) by (vm_compute; reflexivity).
  rewrite Ht, Hu.
  split; [now left|]. split; [vm_compute; reflexivity|].
  split; [reflexivity|]. split; [reflexivity|].
  split; [vm_compute; reflexivity|].
  split; intros [E|[]]; discriminate E.
Qed.

(** ** Quick stats against the filters *)

Lemma memb_In (a : Appointment) (l : list Appointment) :
  memb a l = true <-> In a l.
Proof.
  unfold memb. destruct (in_dec Appointment_eq_dec a l); split;
    intros; try assumption; try reflexivity; try discriminate; contradiction.
Qed.

Lemma filter_perm_length {A : Type} (f : A -> bool) (l l' : list A) :
  Permutation l l' -> List.length (List.filter f l) = List.length (List.filter f l').
Proof.
  induction 1 as [|a l l' _ IH|a b l|l1 l2 l3 _ IH1 _ IH2]; cbn.
  - reflexivity.
  - destruct (f a); cbn; now rewrite IH.
  - destruct (f a), (f b); reflexivity.
  - now rewrite IH1.
Qed.

Lemma filter_filter_andb {A : Type} (f g : A -> bool) (l : list A) :
  List.filter g (List.filter f l) = List.filter (fun a => f a && g a) l.
Proof.
  induction l as [|a l IH]; [reflexivity|]. cbn.
  destruct (f a); cbn; [destruct (g a)|]; now rewrite IH.
Qed.

(** The common members of two sorted selections of one collection are
    counted by the conjunction of the two predicates. *)
Lemma inter_selections_length (cmp : Appointment -> Appointment -> Z)
      (p q : Appointment -> bool) (x : list Appointment) :
  List.length (inter (Array_sort cmp (List.filter p x)) (Array_sort cmp (List.filter q x)))
  = List.length (List.filter (fun a => p a && q a) x).
Proof.
  unfold inter.
  rewrite <- (filter_perm_length _ _ _ (Array_sort_perm cmp (List.filter p x))).
  rewrite filter_filter_andb. f_equal.
  apply filter_ext_in. intros a Ha.
  destruct (p a); [|reflexivity]. cbn.
  destruct (q a) eqn:Eq.
  - apply memb_In, Array_sort_In, filter_In. now split.
  - destruct (memb a _) eqn:Em; [|reflexivity].
    apply memb_In, Array_sort_In, filter_In in Em. destruct Em as [_ Em]. congruence.
Qed.

(** C6.  The "Missed" counter is the number of appointments that the
    ['past'] filter and the ['scheduled'] filter both show: those that
    [past_pred] accepts and whose status is [scheduled]. *)
Theorem missedCount_past_inter_scheduled (tz now : Z) (x : list Appointment) :
  missedCount tz now x
  = List.length (inter (filtered_view tz now "past" x) (filtered_view tz now "scheduled" x))
  /\ missedCount tz now x
     = List.length (List.filter
         (fun apt => past_pred tz now apt && String.eqb (status apt) "scheduled") x).
Proof.
  assert (H : missedCount tz now x
     = List.length (List.filter
         (fun apt => past_pred tz now apt && String.eqb (status apt) "scheduled") x))
    by reflexivity.
  split; [|exact H].
  rewrite H, !filtered_view_eq.
  change (select tz now "past" x) with (List.filter (past_pred tz now) x).
  change (select tz now "scheduled" x) with (List.filter (status_pred "scheduled") x).
  now rewrite inter_selections_length.
Qed.

(** C10.  The "Upcoming" counter is the number of appointments that the
    ['upcoming'] filter and the ['scheduled'] filter both show: those that
    [upcoming_pred] accepts and whose status is [scheduled]. *)
Theorem upcomingScheduledCount_upcoming_inter_scheduled (tz now : Z)
        (x : list Appointment) :
  upcomingScheduledCount tz now x
  = List.length (inter (filtered_view tz now "upcoming" x)
                       (filtered_view tz now "scheduled" x))
  /\ upcomingScheduledCount tz now x
     = List.length (List.filter
         (fun apt => upcoming_pred tz now apt && String.eqb (status apt) "scheduled") x).
Proof.
  assert (H : upcomingScheduledCount tz now x
     = List.length (List.filter
         (fun apt => upcoming_pred tz now apt && String.eqb (status apt) "scheduled") x))
    by reflexivity.
  split; [|exact H].
  rewrite H, !filtered_view_eq.
  change (select tz now "upcoming" x) with (List.filter (upcoming_pred tz now) x).
  change (select tz now "scheduled" x) with (List.filter (status_pred "scheduled") x).
  now rewrite inter_selections_length.
Qed.

Example stats_on_mock_data :
  let now := Date_of_datetime 0 (mkDate 2024 2 21) (mkTime 10 0) in
  todayCount 0 now mockAppointments = 1%nat
  /\ completedCount mockAppointments = 0%nat
  /\ missedCount 0 now mockAppointments = 1%nat
  /\ upcomingScheduledCount 0 now mockAppointments = 1%nat.
Proof. vm_compute. repeat split. Qed.

(** ** Status changes *)

Lemma State_eta (st : State) :
  set_appointments st (appointments st) = st.
Proof. now destruct st. Qed.

Lemma map_absent (aid newStatus : string) (x : list Appointment) :
  absent aid x ->
  List.map (fun apt => if String.eqb (id apt) aid then with_status apt newStatus else apt) x
  = x.
Proof.
  intros H. rewrite <- (map_id x) at 2. apply map_ext_in.
  intros apt Hin. specialize (H apt Hin).
  apply String.eqb_neq in H. now rewrite H.
Qed.

Lemma find_absent (aid : string) (x : list Appointment) :
  absent aid x -> List.find (fun apt => String.eqb (id apt) aid) x = None.
Proof.
  intros H. destruct (List.find _ x) as [a|] eqn:E; [|reflexivity].
  apply find_some in E. destruct E as [Hin E].
  apply String.eqb_eq in E. now destruct (H a Hin).
Qed.

(** C4 (as stated, fails).  Without a backend, a status change for the id
    "99", which no record of the sample data carries, goes through without
    any failure being signalled. *)
Lemma absent_id_reports_no_failure :
  absent "99" mockAppointments
  /\ ~ status_change_failed
        (handleStatusChange (B := unit) None "99" "completed"
           (tt, mkState mockAppointments [] false "all" "")).
Proof.
  split.
  - intros apt [<-|[<-|[]]]; discriminate.
  - unfold status_change_failed. cbn. discriminate.
Qed.

(** C4 (amended).  For an id that no record carries: without a backend the
    handler changes nothing and signals nothing; with a backend it hands
    [{ status: newStatus }] to [update], and when the store rejects the call
    it stores the failure message and keeps collection and store as they
    were, while an accepted call is followed by a reload. *)
Theorem handleStatusChange_absent_id {B : Type} (electronAPI : option (StoreAdapter B))
        (b : B) (st : State) (aid newStatus : string) :
  absent aid (appointments st) ->
  match electronAPI with
  | None => handleStatusChange electronAPI aid newStatus (b, st) = (b, st)
  | Some api =>
      match update api aid (StatusOnly newStatus) b with
      | inl _ =>
          handleStatusChange electronAPI aid newStatus (b, st)
          = (b, set_error st "Failed to update appointment status.")
          /\ status_change_failed (handleStatusChange electronAPI aid newStatus (b, st))
          /\ appointments (snd (handleStatusChange electronAPI aid newStatus (b, st)))
             = appointments st
      | inr b' =>
          handleStatusChange electronAPI aid newStatus (b, st)
          = (b', loadAppointments electronAPI b' st)
      end
  end.
Proof.
  intros Habs. destruct electronAPI as [api|]; cbn [handleStatusChange].
  - rewrite (find_absent aid _ Habs). cbn [spread].
    destruct (update api aid (StatusOnly newStatus) b); [|reflexivity].
    repeat split.
  - now rewrite (map_absent aid newStatus _ Habs), State_eta.
Qed.

Lemma memoryAdapter_absent (aid : string) (p : Patch) (b : list Appointment) :
  absent aid b -> update memoryAdapter aid p b = inl NotFound.
Proof.
  intros H. cbn.
  destruct (existsb _ b) eqn:E; [|reflexivity].
  apply existsb_exists in E. destruct E as (a & Hin & E).
  apply String.eqb_eq in E. now destruct (H a Hin).
Qed.

Lemma absent_99_mock : absent "99" mockAppointments.
Proof. intros apt [<-|[<-|[]]]; discriminate. Qed.

Lemma handleStatusChange_absent_id_witness :
  handleStatusChange (B := unit) None "99" "completed"
    (tt, mkState mockAppointments [] false "all" "")
  = (tt, mkState mockAppointments [] false "all" "")
  /\ status_change_failed
       (handleStatusChange (Some memoryAdapter) "99" "completed"
          (mockAppointments, mkState mockAppointments [] false "all" "")).
Proof.
  split.
  - exact (handleStatusChange_absent_id (B := unit) None tt
             (mkState mockAppointments [] false "all" "") "99" "completed"
             absent_99_mock).
  - exact (proj1 (proj2 (handleStatusChange_absent_id (Some memoryAdapter) mockAppointments
             (mkState mockAppointments [] false "all" "") "99" "completed"
             absent_99_mock))).
Defined.

Lemma with_status_same (apt : Appointment) (newStatus : string) :
  same_but_status apt (with_status apt newStatus)
  /\ status (with_status apt newStatus) = newStatus.
Proof. unfold same_but_status. cbn. repeat split. Qed.

Lemma same_but_status_refl (apt : Appointment) : same_but_status apt apt.
Proof. unfold same_but_status. repeat split. Qed.

Lemma unique_id (x : list Appointment) (a a' : Appointment) :
  NoDup (List.map id x) -> In a x -> In a' x -> id a = id a' -> a = a'.
Proof.
  induction x as [|c x IH]; cbn; [contradiction|].
  intros Hnd [->|Ha] [->|Ha'] Hid; inversion Hnd as [|? ? Hnotin Hnd']; subst.
  - reflexivity.
  - exfalso. apply Hnotin. rewrite Hid. now apply in_map.
  - exfalso. apply Hnotin. rewrite <- Hid. now apply in_map.
  - now apply IH.
Qed.

Lemma memoryAdapter_applies_patch : applies_patch memoryAdapter.
Proof.
  intros aid p b b' x Hu Hg. cbn in *.
  destruct (existsb _ b); [|discriminate].
  injection Hu as <-. injection Hg as <-. reflexivity.
Qed.

(** The collection after a status change that went through: the old
    records with the change applied, at the same places without a backend
    and in the order of the store with one. *)
Lemma handleStatusChange_appointments {B : Type} (electronAPI : option (StoreAdapter B))
      (b : B) (st : State) (aid newStatus : string) :
  (exists apt, In apt (appointments st) /\ id apt = aid) ->
  backend_in_sync electronAPI b st ->
  update_accepted electronAPI b st aid newStatus ->
  Permutation (List.map (change_status aid newStatus) (appointments st))
              (appointments (snd (handleStatusChange electronAPI aid newStatus (b, st))))
  /\ (electronAPI = None ->
      appointments (snd (handleStatusChange electronAPI aid newStatus (b, st)))
      = List.map (change_status aid newStatus) (appointments st)).
Proof.
  intros (a & Hin & Hid) Hsync Hacc.
  destruct electronAPI as [api|]; cbn [handleStatusChange].
  - split; [|discriminate].
    destruct Hsync as (Hlaw & (x & Hget & Hperm) & Hnd). destruct Hacc as (b' & Hupd).
    rewrite Hupd. cbn [snd]. unfold loadAppointments.
    destruct (List.find _ (appointments st)) as [a0|] eqn:Ef.
    + apply find_some in Ef. destruct Ef as [Hin0 Ef]. apply String.eqb_eq in Ef.
      cbn [spread] in Hupd. rewrite (Hlaw _ _ _ _ _ Hupd Hget). cbn.
      replace (List.map _ x) with (List.map (change_status aid newStatus) x).
      * apply Permutation_map, Permutation_sym, Hperm.
      * apply map_ext_in. intros apt Hapt. unfold change_status.
        destruct (String.eqb (id apt) aid) eqn:E; [|reflexivity].
        apply String.eqb_eq in E. cbn [merge].
        apply (Permutation_in _ Hperm) in Hapt.
        now rewrite (unique_id _ apt a0 Hnd Hapt Hin0) by congruence.
    + apply find_none with (x := a) in Ef; [|exact Hin].
      apply String.eqb_neq in Ef. contradiction.
  - split; [apply Permutation_refl|reflexivity].
Qed.

Lemma change_status_frame (aid newStatus : string) (apt : Appointment) :
  same_but_status apt (change_status aid newStatus apt)
  /\ (id apt <> aid -> change_status aid newStatus apt = apt)
  /\ (id apt = aid -> status (change_status aid newStatus apt) = newStatus).
Proof.
  unfold change_status. destruct (String.eqb (id apt) aid) eqn:E.
  - apply String.eqb_eq in E.
    split; [apply with_status_same|]. split; [contradiction|reflexivity].
  - apply String.eqb_neq in E.
    split; [apply same_but_status_refl|]. split; [reflexivity|contradiction].
Qed.

(** C9.  A status change for an id of the collection that goes through
    leaves the collection with the same records, the change applied: every
    old record has its counterpart in the new collection and every new
    record comes from an old one, a record with another id being untouched
    and a record with the id having the new status and all its other fields
    as before.  With a backend the records come back in the order of the
    store; without one they stay at their places. *)
Theorem handleStatusChange_frame {B : Type} (electronAPI : option (StoreAdapter B))
        (b : B) (st : State) (aid newStatus : string) :
  (exists apt, In apt (appointments st) /\ id apt = aid) ->
  backend_in_sync electronAPI b st ->
  update_accepted electronAPI b st aid newStatus ->
  let st' := snd (handleStatusChange electronAPI aid newStatus (b, st)) in
  Permutation (List.map (change_status aid newStatus) (appointments st)) (appointments st')
  /\ List.length (appointments st') = List.length (appointments st)
  /\ (forall apt : Appointment,
        In apt (appointments st) ->
        exists apt',
          In apt' (appointments st')
          /\ same_but_status apt apt'
          /\ (id apt <> aid -> apt' = apt)
          /\ (id apt = aid -> status apt' = newStatus))
  /\ (forall apt' : Appointment,
        In apt' (appointments st') ->
        exists apt,
          In apt (appointments st)
          /\ same_but_status apt apt'
          /\ (id apt <> aid -> apt' = apt)
          /\ (id apt = aid -> status apt' = newStatus))
  /\ (electronAPI = None ->
      forall (i : nat) (apt : Appointment),
        nth_error (appointments st) i = Some apt ->
        nth_error (appointments st') i = Some (change_status aid newStatus apt)).
Proof.
  intros Hex Hsync Hacc st'. subst st'.
  destruct (handleStatusChange_appointments _ _ _ _ _ Hex Hsync Hacc) as [Hperm Hmock].
  set (x' := appointments (snd (handleStatusChange electronAPI aid newStatus (b, st)))) in *.
  split; [exact Hperm|].
  split; [rewrite <- (Permutation_length Hperm); apply length_map|].
  split; [|split].
  - intros apt Hin. exists (change_status aid newStatus apt).
    split; [|apply change_status_frame].
    apply (Permutation_in _ Hperm). now apply in_map.
  - intros apt' Hin'.
    apply (Permutation_in _ (Permutation_sym Hperm)), in_map_iff in Hin'.
    destruct Hin' as (apt & <- & Hin). exists apt.
    split; [exact Hin|apply change_status_frame].
  - intros HNone i apt Hi. rewrite (Hmock HNone), nth_error_map, Hi. reflexivity.
Qed.

Lemma NoDup_mock_ids : NoDup (List.map id mockAppointments).
Proof.
  cbn. constructor.
  - intros [E|[]]. discriminate E.
  - constructor; [intros []|constructor].
Qed.

(** The state after mounting on a store that holds the records in the order
    [2; 1]: the reload stores [2; 1] and the run of [filterAppointments]
    under ['all'] sorts the snapshot in place to [1; 2], while the store
    keeps its order. *)
Lemma handleStatusChange_frame_witness :
  let store := [mockAppointment2; mockAppointment1] in
  let st := filterAppointments 0 0
              (loadAppointments (Some memoryAdapter) store (mkState [] [] true "all" "")) in
  let st' := snd (handleStatusChange (Some memoryAdapter) "1" "completed" (store, st)) in
  appointments st = [mockAppointment1; mockAppointment2]
  /\ Permutation (List.map (change_status "1" "completed") (appointments st))
                 (appointments st')
  /\ List.length (appointments st') = List.length (appointments st).
Proof.
  intros store st st'. split; [reflexivity|].
  assert (Hnd : NoDup (List.map id (appointments st))) by exact NoDup_mock_ids.
  destruct (handleStatusChange_frame (Some memoryAdapter) store st "1" "completed")
    as (Hperm & Hlen & _).
  - exists mockAppointment1. split; [now left|reflexivity].
  - split; [exact memoryAdapter_applies_patch|]. split; [|exact Hnd].
    exists store. split; [reflexivity|apply perm_swap].
  - eexists. reflexivity.
  - split; [exact Hperm|exact Hlen].
Defined.

Example status_change_on_mock_data :
  appointments
    (snd (handleStatusChange (Some memoryAdapter) "1" "completed"
            (mockAppointments, mkState mockAppointments [] false "all" "")))
  = [with_status mockAppointment1 "completed"; mockAppointment2]
  /\ appointments
       (snd (handleStatusChange (B := unit) None "2" "cancelled"
               (tt, mkState mockAppointments [] false "all" "")))
     = [mockAppointment1; with_status mockAppointment2 "cancelled"].
Proof. split; reflexivity. Qed.


(** * Further properties of the component *)

(** ** More on the stable sort *)

Section ArraySortMore.
Context {A : Type}.
Variable cmp : A -> A -> Z.
Variable key : A -> Z.
Hypothesis cmp_key : forall a b, cmp a b = key a - key b.

Lemma Array_sort_fixpoint (l : list A) :
  StronglySorted (key_le key) l -> Array_sort cmp l = l.
Proof.
  intros Hs. apply (stable_sorted_unique key).
  - now apply Array_sort_sorted.
  - exact Hs.
  - intros k. now apply Array_sort_stable.
Qed.

Lemma Array_sort_idem (l : list A) :
  Array_sort cmp (Array_sort cmp l) = Array_sort cmp l.
Proof. apply Array_sort_fixpoint. now apply Array_sort_sorted. Qed.

Lemma StronglySorted_filter (p : A -> bool) (l : list A) :
  StronglySorted (key_le key) l -> StronglySorted (key_le key) (List.filter p l).
Proof.
  induction 1 as [|a l Hs IH Ha]; cbn; [constructor|].
  destruct (p a); [|exact IH].
  constructor; [exact IH|].
  rewrite Forall_forall in *. intros b Hb. apply Ha.
  now apply filter_In in Hb.
Qed.

Lemma filter_comm (p q : A -> bool) (l : list A) :
  List.filter p (List.filter q l) = List.filter q (List.filter p l).
Proof.
  rewrite !filter_filter_andb. apply filter_ext. intros a. apply andb_comm.
Qed.

(** Selecting from the sorted array is sorting the selection. *)
Lemma Array_sort_filter (p : A -> bool) (l : list A) :
  List.filter p (Array_sort cmp l) = Array_sort cmp (List.filter p l).
Proof.
  apply (stable_sorted_unique key).
  - apply StronglySorted_filter. now apply Array_sort_sorted.
  - now apply Array_sort_sorted.
  - intros k. rewrite filter_comm.
    rewrite (Array_sort_stable cmp key cmp_key), (Array_sort_stable cmp key cmp_key).
    apply filter_comm.
Qed.
End ArraySortMore.

Lemma sort_insert_map {A : Type} (cmp : A -> A -> Z) (f : A -> A) (x : A) (l : list A) :
  (forall a b, cmp (f a) (f b) = cmp a b) ->
  sort_insert cmp (f x) (List.map f l) = List.map f (sort_insert cmp x l).
Proof.
  intros H. induction l as [|y l IH]; [reflexivity|].
  cbn. rewrite H. destruct (cmp x y >? 0); cbn; [now rewrite IH|reflexivity].
Qed.

Lemma Array_sort_map {A : Type} (cmp : A -> A -> Z) (f : A -> A) (l : list A) :
  (forall a b, cmp (f a) (f b) = cmp a b) ->
  Array_sort cmp (List.map f l) = List.map f (Array_sort cmp l).
Proof.
  intros H. induction l as [|x l IH]; [reflexivity|].
  cbn. rewrite IH. now apply sort_insert_map.
Qed.

(** X5.  Sorting twice is sorting once, and an array that is already
    in chronological order comes back as it is. *)
Theorem sort_idempotent (tz : Z) (x : list Appointment) :
  Array_sort (compareFn tz) (Array_sort (compareFn tz) x) = Array_sort (compareFn tz) x
  /\ (StronglySorted (key_le (instant tz)) x -> Array_sort (compareFn tz) x = x).
Proof.
  split.
  - apply (Array_sort_idem _ (instant tz)), compareFn_instant.
  - apply (Array_sort_fixpoint _ (instant tz)), compareFn_instant.
Qed.

Lemma sort_idempotent_witness :
  Array_sort (compareFn 0) mockAppointments = mockAppointments.
Proof.
  apply (sort_idempotent 0 mockAppointments).
  repeat constructor; unfold key_le; vm_compute; discriminate.
Defined.

(** X6.  The result of the sort is the only arrangement that is in
    ascending order of the instant and keeps, for every instant, the
    appointments at that instant in their input order. *)
Theorem sort_result_unique (tz : Z) (x l : list Appointment) :
  StronglySorted (key_le (instant tz)) l ->
  (forall k : Z, List.filter (fun a => instant tz a =? k) l
                 = List.filter (fun a => instant tz a =? k) x) ->
  l = Array_sort (compareFn tz) x.
Proof.
  intros Hs Hk. apply (stable_sorted_unique (instant tz)).
  - exact Hs.
  - apply Array_sort_sorted, compareFn_instant.
  - intros k. rewrite Hk. symmetry. apply Array_sort_stable, compareFn_instant.
Qed.

Lemma sort_result_unique_witness :
  [mockAppointment1; mockAppointment2]
  = Array_sort (compareFn 0) [mockAppointment2; mockAppointment1].
Proof.
  apply sort_result_unique.
  - repeat constructor; unfold key_le; vm_compute; discriminate.
  - intros k. cbn [List.filter].
    change (instant 0 mockAppointment1) with 1708419600000.
    change (instant 0 mockAppointment2) with 1708525800000.
    destruct (1708419600000 =? k) eqn:E1, (1708525800000 =? k) eqn:E2;
      try reflexivity.
    apply Z.eqb_eq in E1, E2. rewrite <- E1 in E2. discriminate E2.
Defined.

(** ** More on [filterAppointments] *)

(** Every branch of the switch keeps the members that pass one test. *)
Lemma select_is_filter (tz now : Z) (key : string) :
  exists p : Appointment -> bool,
    forall x, select tz now key x = List.filter p x.
Proof.
  unfold select.
  destruct (String.eqb key "today"); [eexists; reflexivity|].
  destruct (String.eqb key "upcoming"); [eexists; reflexivity|].
  destruct (String.eqb key "past"); [eexists; reflexivity|].
  destruct (String.eqb key "scheduled"); [eexists; reflexivity|].
  destruct (String.eqb key "completed"); [eexists; reflexivity|].
  destruct (String.eqb key "cancelled"); [eexists; reflexivity|].
  exists (fun _ => true). intros x. induction x as [|a x IH]; cbn; congruence.
Qed.

Lemma filter_idem {A : Type} (p : A -> bool) (l : list A) :
  List.filter p (List.filter p l) = List.filter p l.
Proof.
  rewrite filter_filter_andb. apply filter_ext. intros a. now destruct (p a).
Qed.

Lemma filter_length_le {A : Type} (p : A -> bool) (l : list A) :
  (List.length (List.filter p l) <= List.length l)%nat.
Proof.
  induction l as [|a l IH]; cbn; [lia|]. destruct (p a); cbn; lia.
Qed.

Lemma filtered_view_of_sorted (tz now : Z) (key : string) (x : list Appointment) :
  filtered_view tz now key (Array_sort (compareFn tz) x) = filtered_view tz now key x.
Proof.
  rewrite !filtered_view_eq.
  destruct (select_is_filter tz now key) as [p Hp]. rewrite !Hp.
  rewrite (Array_sort_filter _ (instant tz) (compareFn_instant tz)).
  apply (Array_sort_idem _ (instant tz)), compareFn_instant.
Qed.

Lemma filterAppointments_appointments (tz now : Z) (st : State) :
  appointments (filterAppointments tz now st)
  = if fresh_array (filter st) then appointments st
    else Array_sort (compareFn tz) (appointments st).
Proof.
  unfold filterAppointments. cbn [appointments].
  destruct (fresh_array (filter st)) eqn:E; [reflexivity|].
  now rewrite (select_default _ _ _ _ E).
Qed.

(** X8.  Whatever the key, the rows shown are in ascending order of
    the instant, each of them is a record of the collection, and there are
    no more rows than records. *)
Theorem filtered_view_sorted_subcollection (tz now : Z) (key : string)
        (x : list Appointment) :
  StronglySorted (key_le (instant tz)) (filtered_view tz now key x)
  /\ (forall apt, In apt (filtered_view tz now key x) -> In apt x)
  /\ (List.length (filtered_view tz now key x) <= List.length x)%nat.
Proof.
  destruct (select_is_filter tz now key) as [p Hp].
  split; [rewrite filtered_view_eq; apply Array_sort_sorted, compareFn_instant|].
  split.
  - intros apt. rewrite filtered_view_In, Hp, filter_In. tauto.
  - rewrite filtered_view_eq, Array_sort_length, Hp. apply filter_length_le.
Qed.

(** X9.  Filtering the rows shown once more with the same key shows
    the same rows. *)
Theorem filtered_view_idempotent (tz now : Z) (key : string) (x : list Appointment) :
  filtered_view tz now key (filtered_view tz now key x) = filtered_view tz now key x.
Proof.
  rewrite (filtered_view_eq tz now key x), filtered_view_of_sorted.
  rewrite !filtered_view_eq.
  destruct (select_is_filter tz now key) as [p Hp]. rewrite !Hp.
  now rewrite filter_idem.
Qed.

(** X10.  Running [filterAppointments] a second time changes nothing:
    the state after two runs is the state after one. *)
Theorem filterAppointments_idempotent (tz now : Z) (st : State) :
  filterAppointments tz now (filterAppointments tz now st)
  = filterAppointments tz now st.
Proof.
  unfold filterAppointments. cbn [appointments filteredAppointments loading filter error].
  destruct (fresh_array (filter st)) eqn:E; [reflexivity|].
  rewrite !(select_default _ _ _ _ E).
  now rewrite (Array_sort_idem _ (instant tz) (compareFn_instant tz)).
Qed.

(** X11.  [filterAppointments] never adds, drops or alters a record
    of the collection: under the six keys of the [case] branches the array
    held in [appointments] is left as it is, and in the [default] branch it
    is put in chronological order in place.  The other fields of the state
    are left alone. *)
Theorem filterAppointments_keeps_collection (tz now : Z) (st : State) :
  Permutation (appointments st) (appointments (filterAppointments tz now st))
  /\ (fresh_array (filter st) = true ->
      appointments (filterAppointments tz now st) = appointments st)
  /\ (fresh_array (filter st) = false ->
      appointments (filterAppointments tz now st)
      = Array_sort (compareFn tz) (appointments st))
  /\ filter (filterAppointments tz now st) = filter st
  /\ error (filterAppointments tz now st) = error st
  /\ loading (filterAppointments tz now st) = loading st.
Proof.
  rewrite filterAppointments_appointments.
  destruct (fresh_array (filter st)) eqn:E.
  - repeat split; try reflexivity; discriminate.
  - repeat split; try reflexivity; try discriminate. apply Array_sort_perm.
Qed.

Lemma filterAppointments_keeps_collection_witness :
  appointments
    (filterAppointments 0 0 (mkState [mockAppointment2; mockAppointment1] [] false "past" ""))
  = [mockAppointment2; mockAppointment1]
  /\ appointments
       (filterAppointments 0 0 (mkState [mockAppointment2; mockAppointment1] [] false "all" ""))
     = [mockAppointment1; mockAppointment2].
Proof.
  split.
  - apply (filterAppointments_keeps_collection 0 0
             (mkState [mockAppointment2; mockAppointment1] [] false "past" "")).
    reflexivity.
  - destruct (filterAppointments_keeps_collection 0 0
             (mkState [mockAppointment2; mockAppointment1] [] false "all" ""))
      as (_ & _ & H & _).
    rewrite H; reflexivity.
Defined.

(** X12.  The reordering of the collection that a run under ['all']
    leaves behind does not change what any later run shows, whatever its
    key. *)
Theorem later_views_unaffected (tz now : Z) (st : State) (key : string) :
  filtered_view tz now key (appointments (filterAppointments tz now st))
  = filtered_view tz now key (appointments st).
Proof.
  rewrite filterAppointments_appointments.
  destruct (fresh_array (filter st)); [reflexivity|].
  apply filtered_view_of_sorted.
Qed.

(** ** Past and upcoming *)

Lemma isToday_same_instant (tz now : Z) : isToday tz now now = true.
Proof. unfold isToday, isSameDay. apply Z.eqb_refl. Qed.

Lemma upcoming_is_not_past (tz now : Z) (apt : Appointment) :
  upcoming_pred tz now apt = negb (past_pred tz now apt).
Proof.
  unfold upcoming_pred, past_pred, isFuture, isPast.
  set (d := Date_of_date (appointment_date apt)).
  destruct (isToday tz now d) eqn:E.
  - now rewrite orb_true_r, andb_false_r.
  - assert (d <> now) by (intros ->; rewrite isToday_same_instant in E; discriminate).
    cbn. rewrite orb_false_r, andb_true_r.
    destruct (d >? now) eqn:E1, (d <? now) eqn:E2; try reflexivity; lia.
Qed.

Lemma filter_partition_length {A : Type} (p : A -> bool) (l : list A) :
  (List.length (List.filter p l) + List.length (List.filter (fun a => negb (p a)) l)
   = List.length l)%nat.
Proof.
  induction l as [|a l IH]; [reflexivity|]. cbn. destruct (p a); cbn; lia.
Qed.

(** X13.  Every appointment is either past or upcoming, never both:
    the rows of the ['past'] filter and those of the ['upcoming'] filter
    together count every record once. *)
Theorem past_upcoming_partition (tz now : Z) (x : list Appointment) :
  (forall apt, In apt x ->
     (In apt (filtered_view tz now "past" x)
      <-> ~ In apt (filtered_view tz now "upcoming" x)))
  /\ (List.length (filtered_view tz now "past" x)
      + List.length (filtered_view tz now "upcoming" x) = List.length x)%nat.
Proof.
  split.
  - intros apt Hin.
    rewrite !filtered_view_In, select_past, select_upcoming, !filter_In.
    rewrite upcoming_is_not_past.
    destruct (past_pred tz now apt); cbn; split.
    + intros _ [_ H]. discriminate.
    + intros _. now split.
    + intros [_ H]. discriminate.
    + intros H. exfalso. apply H. now split.
  - rewrite !filtered_view_eq, !Array_sort_length, select_past, select_upcoming.
    pose proof (filter_partition_length (past_pred tz now) x) as H.
    rewrite <- H. f_equal. f_equal.
    apply filter_ext. intros a. apply upcoming_is_not_past.
Qed.

Lemma past_upcoming_partition_witness :
  In mockAppointment1
     (filtered_view 0 (Date_of_datetime 0 (mkDate 2024 2 21) (mkTime 10 0)) "past"
        mockAppointments)
  <-> ~ In mockAppointment1
        (filtered_view 0 (Date_of_datetime 0 (mkDate 2024 2 21) (mkTime 10 0)) "upcoming"
           mockAppointments).
Proof.
  apply (past_upcoming_partition 0 (Date_of_datetime 0 (mkDate 2024 2 21) (mkTime 10 0))
           mockAppointments).
  now left.
Defined.

(** ** More on the quick stats *)

(** X14.  The "Missed" and "Upcoming" counters add up to the number of
    scheduled appointments: each scheduled appointment is counted by exactly
    one of them. *)
Theorem missed_plus_upcoming_is_scheduled (tz now : Z) (x : list Appointment) :
  (missedCount tz now x + upcomingScheduledCount tz now x
   = List.length (filtered_view tz now "scheduled" x))%nat.
Proof.
  rewrite filtered_view_eq, Array_sort_length.
  change (select tz now "scheduled" x) with (List.filter (status_pred "scheduled") x).
  rewrite <- (filter_partition_length (past_pred tz now)
                (List.filter (status_pred "scheduled") x)).
  rewrite !filter_filter_andb. unfold missedCount, upcomingScheduledCount.
  f_equal; f_equal; apply filter_ext; intros a; unfold status_pred.
  - fold (past_pred tz now a). apply andb_comm.
  - fold (upcoming_pred tz now a). rewrite upcoming_is_not_past. apply andb_comm.
Qed.

(** X15.  The "Today's Appointments" counter is the number of rows of
    the ['today'] filter and the "Completed" counter that of the
    ['completed'] filter; neither the "Today" counter nor the "Missed" one
    exceeds the rows of the ['upcoming'] and of the ['past'] filter. *)
Theorem counters_match_views (tz now : Z) (x : list Appointment) :
  todayCount tz now x = List.length (filtered_view tz now "today" x)
  /\ completedCount x = List.length (filtered_view tz now "completed" x)
  /\ (todayCount tz now x <= List.length (filtered_view tz now "upcoming" x))%nat
  /\ (missedCount tz now x <= List.length (filtered_view tz now "past" x))%nat.
Proof.
  rewrite !filtered_view_eq, !Array_sort_length.
  rewrite select_today, select_upcoming, select_past.
  change (select tz now "completed" x) with (List.filter (status_pred "completed") x).
  split; [reflexivity|]. split; [reflexivity|]. split.
  - unfold todayCount.
    replace (List.filter (today_pred tz now) x)
      with (List.filter (today_pred tz now) (List.filter (upcoming_pred tz now) x)).
    + apply filter_length_le.
    + rewrite filter_filter_andb. apply filter_ext. intros a.
      unfold upcoming_pred, today_pred.
      destruct (isToday tz now _); [now rewrite orb_true_r|apply andb_false_r].
  - unfold missedCount.
    replace (List.filter _ x)
      with (List.filter (status_pred "scheduled") (List.filter (past_pred tz now) x)).
    + apply filter_length_le.
    + rewrite filter_filter_andb. reflexivity.
Qed.

(** ** More on badge and label *)

Lemma status_evaluator_fallthrough_witness :
  getStatusDisplayText 0 (Date_of_datetime 0 (mkDate 2024 2 20) (mkTime 8 0))
    "no-show" (mkDate 2024 2 20) = "No-show"
  /\ getStatusBadgeClass 0 (Date_of_datetime 0 (mkDate 2024 2 20) (mkTime 8 0))
       "no-show" (mkDate 2024 2 20) = "badge-info".
Proof.
  apply (status_evaluator_fallthrough 0
           (Date_of_datetime 0 (mkDate 2024 2 20) (mkTime 8 0)) "no-show" (mkDate 2024 2 20));
    discriminate.
Defined.

(** X4.  The class is always one of the five badge classes; it is
    [badge-warning] exactly for a [scheduled] status on a date that is past
    and not today; and the label "Missed" goes with the class
    [badge-warning] and with no other, for every status whose own
    capitalised text is not "Missed". *)
Theorem badge_and_label_agree (tz now : Z) (st : string) (d : ISODate) :
  In (getStatusBadgeClass tz now st d) badge_classes
  /\ (getStatusBadgeClass tz now st d = "badge-warning"
      <-> st = "scheduled"
          /\ isPast now (Date_of_date d) && negb (isToday tz now (Date_of_date d)) = true)
  /\ (capitalize st <> "Missed" ->
      (getStatusDisplayText tz now st d = "Missed"
       <-> getStatusBadgeClass tz now st d = "badge-warning")).
Proof.
  unfold getStatusBadgeClass, getStatusDisplayText, badge_classes. cbv zeta.
  destruct (String.eqb st "completed") eqn:Ec.
  { apply String.eqb_eq in Ec. subst st. cbn.
    split; [tauto|]. split; [split; [discriminate|intros [H _]; discriminate H]|].
    intros _. split; discriminate. }
  destruct (String.eqb st "cancelled") eqn:Ex.
  { apply String.eqb_eq in Ex. subst st. cbn.
    split; [tauto|]. split; [split; [discriminate|intros [H _]; discriminate H]|].
    intros _. split; discriminate. }
  destruct (String.eqb st "scheduled") eqn:Es.
  - apply String.eqb_eq in Es. subst st.
    destruct (isPast now (Date_of_date d)), (isToday tz now (Date_of_date d)); cbn.
    all: split; [tauto|].
    all: split; [split; [try discriminate; now split | intros [_ H]; try discriminate H;
                                                       reflexivity]|].
    all: intros _; split; try discriminate; reflexivity.
  - apply String.eqb_neq in Es.
    rewrite andb_false_r. cbn.
    destruct (isToday tz now (Date_of_date d)); cbn.
    all: split; [tauto|].
    all: split; [split; [discriminate|intros [H _]; contradiction]|].
    all: intros Hcap; split; [intros H; contradiction|discriminate].
Qed.

Lemma badge_and_label_agree_witness :
  getStatusDisplayText 0 (Date_of_datetime 0 (mkDate 2024 2 25) (mkTime 0 0))
    "scheduled" (mkDate 2024 2 20) = "Missed"
  <-> getStatusBadgeClass 0 (Date_of_datetime 0 (mkDate 2024 2 25) (mkTime 0 0))
        "scheduled" (mkDate 2024 2 20) = "badge-warning".
Proof.
  apply (badge_and_label_agree 0 (Date_of_datetime 0 (mkDate 2024 2 25) (mkTime 0 0))
           "scheduled" (mkDate 2024 2 20)).
  discriminate.
Defined.

(** ** More on status changes *)

Lemma handleStatusChange_mock {B : Type} (aid newStatus : string) (b : B) (st : State) :
  handleStatusChange None aid newStatus (b, st)
  = (b, set_appointments st (List.map (change_status aid newStatus) (appointments st))).
Proof. reflexivity. Qed.

Lemma set_appointments_twice (st : State) (l l' : list Appointment) :
  set_appointments (set_appointments st l) l' = set_appointments st l'.
Proof. reflexivity. Qed.

Lemma change_status_id (aid newStatus : string) (apt : Appointment) :
  id (change_status aid newStatus apt) = id apt.
Proof. unfold change_status. now destruct (String.eqb (id apt) aid). Qed.

Lemma change_status_dates (aid newStatus : string) (apt : Appointment) :
  appointment_date (change_status aid newStatus apt) = appointment_date apt
  /\ appointment_time (change_status aid newStatus apt) = appointment_time apt.
Proof. unfold change_status. now destruct (String.eqb (id apt) aid). Qed.

Lemma change_status_twice (aid s s' : string) (apt : Appointment) :
  change_status aid s' (change_status aid s apt) = change_status aid s' apt.
Proof.
  unfold change_status. destruct (String.eqb (id apt) aid) eqn:E.
  - cbn [id with_status]. now rewrite E.
  - now rewrite E.
Qed.

Lemma with_status_own (apt : Appointment) : with_status apt (status apt) = apt.
Proof. now destruct apt. Qed.

(** X16.  Without a backend, a status change overrides an earlier one
    for the same id: two changes in a row leave what the second alone
    leaves, so repeating a change adds nothing. *)
Theorem handleStatusChange_last_wins {B : Type} (aid s s' : string) (w : B * State) :
  handleStatusChange None aid s' (handleStatusChange None aid s w)
  = handleStatusChange None aid s' w.
Proof.
  destruct w as [b st]. rewrite !handleStatusChange_mock.
  cbn [appointments set_appointments]. rewrite set_appointments_twice, map_map.
  do 2 f_equal. apply map_ext. intros a. apply change_status_twice.
Qed.

(** X17.  Without a backend, changing the status of an id and then
    setting it back to what its records had restores the state exactly. *)
Theorem handleStatusChange_revert {B : Type} (aid s s0 : string) (b : B) (st : State) :
  (forall apt, In apt (appointments st) -> id apt = aid -> status apt = s0) ->
  handleStatusChange None aid s0 (handleStatusChange None aid s (b, st)) = (b, st).
Proof.
  intros H. rewrite !handleStatusChange_mock.
  cbn [appointments set_appointments]. rewrite set_appointments_twice, map_map.
  f_equal. etransitivity; [|apply State_eta]. f_equal.
  etransitivity; [|apply map_id].
  apply map_ext_in. intros a Ha. rewrite change_status_twice.
  unfold change_status. destruct (String.eqb (id a) aid) eqn:E; [|reflexivity].
  apply String.eqb_eq in E. rewrite <- (H a Ha E). apply with_status_own.
Qed.

Lemma handleStatusChange_revert_witness :
  handleStatusChange (B := unit) None "1" "scheduled"
    (handleStatusChange None "1" "completed"
       (tt, mkState mockAppointments [] false "all" ""))
  = (tt, mkState mockAppointments [] false "all" "").
Proof.
  apply (handleStatusChange_revert (B := unit) "1" "completed" "scheduled" tt
           (mkState mockAppointments [] false "all" "")).
  intros apt [<-|[<-|[]]] _; reflexivity.
Defined.

Lemma filter_map_commute {A : Type} (p : A -> bool) (f : A -> A) (l : list A) :
  (forall a, p (f a) = p a) ->
  List.filter p (List.map f l) = List.map f (List.filter p l).
Proof.
  intros H. induction l as [|a l IH]; [reflexivity|].
  cbn. rewrite H. destruct (p a); cbn; now rewrite IH.
Qed.

Lemma compareFn_change_status (tz : Z) (aid s : string) (a b : Appointment) :
  compareFn tz (change_status aid s a) (change_status aid s b) = compareFn tz a b.
Proof.
  unfold compareFn.
  destruct (change_status_dates aid s a) as [-> ->].
  destruct (change_status_dates aid s b) as [-> ->]. reflexivity.
Qed.

(** X18.  Without a backend, a status change moves no appointment
    between the ['today'], ['upcoming'] and ['past'] views or the full view
    and keeps the order of the rows: each view after the change is the view
    before it with the change applied row by row. *)
Theorem status_change_keeps_date_views {B : Type} (tz now : Z) (key aid s : string)
        (b : B) (st : State) :
  In key ["today"; "upcoming"; "past"] \/ fresh_array key = false ->
  filtered_view tz now key
    (appointments (snd (handleStatusChange None aid s (b, st))))
  = List.map (change_status aid s) (filtered_view tz now key (appointments st)).
Proof.
  intros Hkey. rewrite handleStatusChange_mock. cbn [snd appointments set_appointments].
  rewrite !filtered_view_eq.
  rewrite <- (Array_sort_map _ _ _ (compareFn_change_status tz aid s)). f_equal.
  assert (Hd : forall a, Date_of_date (appointment_date (change_status aid s a))
                         = Date_of_date (appointment_date a)).
  { intros a. now destruct (change_status_dates aid s a) as [-> _]. }
  destruct Hkey as [[<-|[<-|[<-|[]]]]|Hdef].
  - rewrite !select_today. apply filter_map_commute.
    intros a. unfold today_pred. now rewrite Hd.
  - rewrite !select_upcoming. apply filter_map_commute.
    intros a. unfold upcoming_pred. now rewrite Hd.
  - rewrite !select_past. apply filter_map_commute.
    intros a. unfold past_pred. now rewrite Hd.
  - now rewrite !(select_default _ _ _ _ Hdef).
Qed.

Lemma status_change_keeps_date_views_witness :
  filtered_view 0 (Date_of_datetime 0 (mkDate 2024 2 25) (mkTime 0 0)) "past"
    (appointments
       (snd (handleStatusChange (B := unit) None "2" "completed"
               (tt, mkState mockAppointments [] false "past" ""))))
  = [mockAppointment1; with_status mockAppointment2 "completed"].
Proof.
  rewrite (status_change_keeps_date_views (B := unit) 0
             (Date_of_datetime 0 (mkDate 2024 2 25) (mkTime 0 0)) "past" "2" "completed" tt
             (mkState mockAppointments [] false "past" "")).
  - reflexivity.
  - left. right. right. now left.
Defined.

Lemma map_change_status_absent (aid s : string) (x : list Appointment) :
  ~ In aid (List.map id x) -> List.map (change_status aid s) x = x.
Proof.
  intros H. apply map_absent. intros apt Hin E. apply H. rewrite <- E. now apply in_map.
Qed.

(** How a count over the collection moves when the one record carrying the
    id changes its status. *)
Lemma count_after_change (P : Appointment -> bool) (aid s : string)
      (x : list Appointment) (a : Appointment) :
  NoDup (List.map id x) -> In a x -> id a = aid ->
  (List.length (List.filter P (List.map (change_status aid s) x))
   + (if P a then 1 else 0)
   = List.length (List.filter P x) + (if P (with_status a s) then 1 else 0))%nat.
Proof.
  intros Hnd Hin Hid. induction x as [|c x IH]; [contradiction|].
  cbn [List.map] in Hnd. inversion Hnd as [|? ? Hc Hnd']; subst.
  destruct Hin as [->|Hin].
  - rewrite map_cons, (map_change_status_absent _ s x Hc).
    unfold change_status. rewrite String.eqb_refl. cbn [List.filter].
    destruct (P a), (P (with_status a s)); cbn; lia.
  - assert (Hne : id c <> id a).
    { intros E. apply Hc. rewrite E. now apply in_map. }
    apply String.eqb_neq in Hne. rewrite map_cons. unfold change_status at 1.
    rewrite Hne. cbn [List.filter]. specialize (IH Hnd' Hin).
    destruct (P c); cbn; lia.
Qed.

(** X19.  Without a backend and with unique ids, marking an
    appointment that was not completed as completed raises the "Completed"
    counter by one and leaves the "Today" counter as it was; if the
    appointment was counted as missed, or as upcoming, that counter drops by
    one. *)
Theorem completing_updates_counters {B : Type} (tz now : Z) (aid : string)
        (b : B) (st : State) (a : Appointment) :
  NoDup (List.map id (appointments st)) ->
  In a (appointments st) -> id a = aid -> status a <> "completed" ->
  let x := appointments st in
  let x' := appointments (snd (handleStatusChange None aid "completed" (b, st))) in
  completedCount x' = S (completedCount x)
  /\ todayCount tz now x' = todayCount tz now x
  /\ (status a = "scheduled" -> past_pred tz now a = true ->
      S (missedCount tz now x') = missedCount tz now x)
  /\ (status a = "scheduled" -> upcoming_pred tz now a = true ->
      S (upcomingScheduledCount tz now x') = upcomingScheduledCount tz now x).
Proof.
  intros Hnd Hin Hid Hst x x'. subst x x'.
  rewrite handleStatusChange_mock. cbn [snd appointments set_appointments].
  apply String.eqb_neq in Hst.
  split; [|split; [|split]].
  - pose proof (count_after_change (fun apt => String.eqb (status apt) "completed")
                  aid "completed" _ a Hnd Hin Hid) as H.
    cbn beta in H. rewrite Hst in H. cbn in H. unfold completedCount. lia.
  - pose proof (count_after_change (today_pred tz now) aid "completed" _ a Hnd Hin Hid) as H.
    change (today_pred tz now (with_status a "completed")) with (today_pred tz now a) in H.
    unfold todayCount. lia.
  - intros Hs Hp.
    pose proof (count_after_change
                  (fun apt => past_pred tz now apt && String.eqb (status apt) "scheduled")
                  aid "completed" _ a Hnd Hin Hid) as H.
    cbn beta in H.
    change (past_pred tz now (with_status a "completed")) with (past_pred tz now a) in H.
    rewrite Hp, Hs in H. cbn in H.
    change (missedCount tz now ?l)
      with (List.length (List.filter
              (fun apt => past_pred tz now apt && String.eqb (status apt) "scheduled") l)).
    lia.
  - intros Hs Hu.
    pose proof (count_after_change
                  (fun apt => upcoming_pred tz now apt && String.eqb (status apt) "scheduled")
                  aid "completed" _ a Hnd Hin Hid) as H.
    cbn beta in H.
    change (upcoming_pred tz now (with_status a "completed"))
      with (upcoming_pred tz now a) in H.
    rewrite Hu, Hs in H. cbn in H.
    change (upcomingScheduledCount tz now ?l)
      with (List.length (List.filter
              (fun apt => upcoming_pred tz now apt && String.eqb (status apt) "scheduled") l)).
    lia.
Qed.

Lemma completing_updates_counters_witness :
  let now := Date_of_datetime 0 (mkDate 2024 2 21) (mkTime 10 0) in
  let st := mkState mockAppointments [] false "all" "" in
  let x' := appointments (snd (handleStatusChange (B := unit) None "1" "completed" (tt, st))) in
  completedCount x' = S (completedCount (appointments st))
  /\ S (missedCount 0 now x') = missedCount 0 now (appointments st).
Proof.
  intros now st x'.
  destruct (completing_updates_counters (B := unit) 0 now "1" tt st mockAppointment1
              NoDup_mock_ids ltac:(now left) eq_refl ltac:(discriminate))
    as (Hc & _ & Hm & _).
  split; [exact Hc | exact (Hm eq_refl eq_refl)].
Defined.

(** X20.  With a backend, a rejected call never leaves a partial
    change: when [update] is rejected the collection and the store are as
    before and the message of the handler is stored; when [update] is
    accepted but the reload is rejected, the collection shown is still the
    one before and the message of the reload is stored. *)
Theorem handleStatusChange_rejected {B : Type} (api : StoreAdapter B)
        (aid newStatus : string) (b : B) (st : State) :
  let p := spread (List.find (fun apt => String.eqb (id apt) aid) (appointments st))
                  newStatus in
  let w' := handleStatusChange (Some api) aid newStatus (b, st) in
  (forall e, update api aid p b = inl e ->
     fst w' = b /\ appointments (snd w') = appointments st
     /\ error (snd w') = "Failed to update appointment status.")
  /\ (forall b' e, update api aid p b = inr b' -> getAll api b' = inl e ->
        fst w' = b' /\ appointments (snd w') = appointments st
        /\ error (snd w') = "Failed to load appointments. Please try again."
        /\ loading (snd w') = false).
Proof.
  cbv zeta. cbn [handleStatusChange]. split.
  - intros e He. rewrite He. cbn. repeat split.
  - intros b' e Hu Hg. rewrite Hu. unfold loadAppointments. rewrite Hg. cbn. repeat split.
Qed.

Lemma handleStatusChange_rejected_witness :
  let w' := handleStatusChange (Some memoryAdapter) "99" "completed"
              (mockAppointments, mkState mockAppointments [] false "all" "") in
  fst w' = mockAppointments /\ appointments (snd w') = mockAppointments
  /\ error (snd w') = "Failed to update appointment status.".
Proof.
  apply (proj1 (handleStatusChange_rejected memoryAdapter "99" "completed" mockAppointments
                  (mkState mockAppointments [] false "all" "")) NotFound).
  reflexivity.
Defined.

(** ** Deleting *)

Lemma handleDeleteAppointment_mock {B : Type} (confirm : string -> bool)
      (aid patientName : string) (b : B) (st : State) :
  confirm (confirmMessage patientName) = true ->
  handleDeleteAppointment confirm None aid patientName (b, st)
  = (b, set_appointments st
          (List.filter (fun apt => negb (String.eqb (id apt) aid)) (appointments st))).
Proof. intros H. unfold handleDeleteAppointment. now rewrite H. Qed.

Lemma filter_other_ids_absent (aid : string) (x : list Appointment) :
  absent aid x -> List.filter (fun apt => negb (String.eqb (id apt) aid)) x = x.
Proof.
  intros H. induction x as [|c x IH]; [reflexivity|]. cbn.
  assert (Hc : id c <> aid) by (apply H; now left).
  apply String.eqb_neq in Hc. rewrite Hc. cbn. f_equal.
  apply IH. intros apt Hin. apply H. now right.
Qed.

Lemma filter_other_ids_length (aid : string) (x : list Appointment) (a : Appointment) :
  NoDup (List.map id x) -> In a x -> id a = aid ->
  S (List.length (List.filter (fun apt => negb (String.eqb (id apt) aid)) x))
  = List.length x.
Proof.
  intros Hnd Hin Hid. induction x as [|c x IH]; [contradiction|].
  cbn [List.map] in Hnd. inversion Hnd as [|? ? Hc Hnd']; subst.
  destruct Hin as [->|Hin]; cbn [List.filter].
  - rewrite String.eqb_refl. cbn. f_equal. f_equal.
    apply filter_other_ids_absent. intros apt Hapt E. apply Hc. rewrite <- E.
    now apply in_map.
  - assert (Hne : id c <> id a).
    { intros E. apply Hc. rewrite E. now apply in_map. }
    apply String.eqb_neq in Hne. rewrite Hne. cbn. f_equal. now apply IH.
Qed.

(** X21.  Without a backend, a confirmed deletion keeps exactly the
    records with another id; when no record carries the id nothing changes;
    and with unique ids, deleting an id of the collection makes it one
    record shorter. *)
Theorem confirmed_delete_removes_id {B : Type} (confirm : string -> bool)
        (aid patientName : string) (b : B) (st : State) :
  confirm (confirmMessage patientName) = true ->
  let w' := handleDeleteAppointment confirm None aid patientName (b, st) in
  (forall apt, In apt (appointments (snd w')) <-> In apt (appointments st) /\ id apt <> aid)
  /\ (absent aid (appointments st) -> w' = (b, st))
  /\ (NoDup (List.map id (appointments st)) ->
      (exists apt, In apt (appointments st) /\ id apt = aid) ->
      S (List.length (appointments (snd w'))) = List.length (appointments st)).
Proof.
  intros Hc w'. subst w'. rewrite (handleDeleteAppointment_mock _ _ _ _ _ Hc).
  cbn [snd appointments set_appointments]. split; [|split].
  - intros apt. rewrite filter_In, negb_true_iff, String.eqb_neq. tauto.
  - intros Habs. now rewrite (filter_other_ids_absent _ _ Habs), State_eta.
  - intros Hnd (a & Hin & Hid). now apply (filter_other_ids_length aid _ a).
Qed.

Lemma confirmed_delete_removes_id_witness :
  let w' := handleDeleteAppointment (B := unit) (fun _ => true) None "1" "John Doe"
              (tt, mkState mockAppointments [] false "all" "") in
  S (List.length (appointments (snd w'))) = List.length mockAppointments.
Proof.
  apply (confirmed_delete_removes_id (B := unit) (fun _ => true) "1" "John Doe" tt
           (mkState mockAppointments [] false "all" "") eq_refl).
  - exact NoDup_mock_ids.
  - exists mockAppointment1. split; [now left|reflexivity].
Defined.

(** X22.  Nothing is deleted without the user's confirmation: when
    [window.confirm] answers no, store and state are left as they are,
    backend or not.  When the store rejects a confirmed deletion, store and
    collection are as before and the message of the handler is stored. *)
Theorem delete_declined_or_rejected {B : Type} (confirm : string -> bool)
        (electronAPI : option (AppointmentsAPI B))
        (aid patientName : string) (b : B) (st : State) :
  (confirm (confirmMessage patientName) = false ->
   handleDeleteAppointment confirm electronAPI aid patientName (b, st) = (b, st))
  /\ (forall api e,
        electronAPI = Some api ->
        confirm (confirmMessage patientName) = true ->
        delete api aid b = inl e ->
        handleDeleteAppointment confirm electronAPI aid patientName (b, st)
        = (b, set_error st "Failed to delete appointment.")).
Proof.
  split.
  - intros H. unfold handleDeleteAppointment. now rewrite H.
  - intros api e -> Hc Hd. unfold handleDeleteAppointment. now rewrite Hc, Hd.
Qed.

Lemma delete_declined_or_rejected_witness :
  handleDeleteAppointment (B := unit) (fun _ => false) None "1" "John Doe"
    (tt, mkState mockAppointments [] false "all" "")
  = (tt, mkState mockAppointments [] false "all" "").
Proof.
  apply (delete_declined_or_rejected (B := unit) (fun _ => false) None "1" "John Doe" tt
           (mkState mockAppointments [] false "all" "")).
  reflexivity.
Defined.

(** X23.  Without a backend, a deletion and a status change may be
    made in either order, whatever the two ids, and deleting the same id a
    second time changes nothing more. *)
Theorem delete_composes {B : Type} (confirm : string -> bool)
        (aid patientName aid' s : string) (w : B * State) :
  handleDeleteAppointment confirm None aid patientName
    (handleStatusChange None aid' s w)
  = handleStatusChange None aid' s
      (handleDeleteAppointment confirm None aid patientName w)
  /\ handleDeleteAppointment confirm None aid patientName
       (handleDeleteAppointment confirm None aid patientName w)
     = handleDeleteAppointment confirm None aid patientName w.
Proof.
  destruct w as [b st].
  destruct (confirm (confirmMessage patientName)) eqn:Hc.
  - rewrite !handleStatusChange_mock, !(handleDeleteAppointment_mock _ _ _ _ _ Hc).
    rewrite handleStatusChange_mock.
    cbn [appointments set_appointments]. rewrite !set_appointments_twice. split.
    + do 2 f_equal. apply filter_map_commute.
      intros a. now rewrite change_status_id.
    + now rewrite filter_idem.
  - rewrite handleStatusChange_mock. unfold handleDeleteAppointment.
    rewrite Hc. split; reflexivity.
Qed.

(** X24.  Without a backend, a confirmed deletion takes the rows of
    the deleted id out of every view and leaves the remaining rows in the
    order they had. *)
Theorem delete_removes_rows {B : Type} (tz now : Z) (confirm : string -> bool)
        (key aid patientName : string) (b : B) (st : State) :
  confirm (confirmMessage patientName) = true ->
  filtered_view tz now key
    (appointments (snd (handleDeleteAppointment confirm None aid patientName (b, st))))
  = List.filter (fun apt => negb (String.eqb (id apt) aid))
                (filtered_view tz now key (appointments st)).
Proof.
  intros Hc. rewrite (handleDeleteAppointment_mock _ _ _ _ _ Hc).
  cbn [snd appointments set_appointments]. rewrite !filtered_view_eq.
  destruct (select_is_filter tz now key) as [p Hp]. rewrite !Hp.
  rewrite (Array_sort_filter _ (instant tz) (compareFn_instant tz)).
  f_equal. apply filter_comm.
Qed.

Lemma delete_removes_rows_witness :
  filtered_view 0 0 "scheduled"
    (appointments
       (snd (handleDeleteAppointment (B := unit) (fun _ => true) None "1" "John Doe"
               (tt, mkState mockAppointments [] false "all" ""))))
  = [mockAppointment2].
Proof.
  rewrite (delete_removes_rows (B := unit) 0 0 (fun _ => true) "scheduled" "1" "John Doe" tt
             (mkState mockAppointments [] false "all" "") eq_refl).
  reflexivity.
Defined.

(** ** Instances of the calendar lemmas *)

Lemma classification_east_of_UTC_witness :
  today_pred msPerHour (Date_of_datetime msPerHour (mkDate 2024 2 20) (mkTime 8 0))
    mockAppointment1 = true
  /\ upcoming_pred msPerHour (Date_of_datetime msPerHour (mkDate 2024 2 20) (mkTime 8 0))
       mockAppointment1 = true
  /\ past_pred msPerHour (Date_of_datetime msPerHour (mkDate 2024 2 20) (mkTime 8 0))
       mockAppointment1 = false.
Proof.
  apply (classification_east_of_UTC msPerHour
           (Date_of_datetime msPerHour (mkDate 2024 2 20) (mkTime 8 0)) mockAppointment1).
  - unfold msPerHour, msPerDay. lia.
  - reflexivity.
Defined.

Lemma classification_before_after_witness :
  past_pred (-5 * msPerHour)
    (Date_of_datetime (-5 * msPerHour) (mkDate 2024 2 21) (mkTime 12 0))
    mockAppointment1 = true.
Proof.
  apply (classification_before_after (-5 * msPerHour)
           (Date_of_datetime (-5 * msPerHour) (mkDate 2024 2 21) (mkTime 12 0))
           mockAppointment1).
  - unfold msPerHour, msPerDay. lia.
  - vm_compute. reflexivity.
Defined.

Lemma filtered_view_sorted_subcollection_witness :
  In mockAppointment2 mockAppointments.
Proof.
  apply (filtered_view_sorted_subcollection 0 0 "scheduled" mockAppointments).
  vm_compute. right. now left.
Defined.
